(** * tex2word: the recursive inclusion resolver of [convert-whole-document.py]

    A shallow embedding of [process_tex_recursively] (the closure inside
    [create_combined_tex]) together with the library calls it relies on:
    Python [str] methods, the two regular-expression calls, and the
    [posixpath] functions.

    Modelling conventions.
    - A Python [str] is a [string]; a character is a code point below 256.
      Offsets are character offsets, as in [re.Match.start()].
    - The file system is a finite map from normalised absolute paths to
      nodes (regular file with its decoded text, or directory); there are
      no symbolic links, so a path names a node through [abspath].
    - [os.sep] is "/" (the [posixpath] flavour of [os.path]).
    - Console output is a list of structured diagnostics appended to the
      world; the resolver runs in a small state-and-exception monad whose
      [None] result means that the recursion fuel ran out. *)

From Stdlib Require Import Ascii String Arith Lia.
From stdpp Require Import gmap strings list fin_maps sorting.

Local Open Scope nat_scope.
Local Open Scope stdpp_scope.

(** ** Python [str] *)

Module Str.

Definition LF : ascii := "010"%char.
Definition nl : string := String LF "".

(** [s[:n]] *)
Fixpoint take (n : nat) (s : string) : string :=
  match n, s with
  | S k, String c s' => String c (take k s')
  | _, _ => ""
  end.

(** [s[n:]] *)
Fixpoint drop (n : nat) (s : string) : string :=
  match n, s with
  | S k, String _ s' => drop k s'
  | _, _ => s
  end.

(** [c in s] for a single character [c] *)
Fixpoint contains (c : ascii) (s : string) : bool :=
  match s with
  | "" => false
  | String d s' => Ascii.eqb d c || contains c s'
  end.

(** [s.replace(a, b)] for single characters *)
Fixpoint replace (a b : ascii) (s : string) : string :=
  match s with
  | "" => ""
  | String c s' => String (if Ascii.eqb c a then b else c) (replace a b s')
  end.

(** [s.startswith(p)] *)
Fixpoint startswith (s p : string) {struct p} : bool :=
  match p, s with
  | "", _ => true
  | String a p', String c s' => Ascii.eqb c a && startswith s' p'
  | String _ _, "" => false
  end.

(** [s.endswith(suf)] *)
Definition endswith (s suf : string) : bool :=
  String.eqb (drop (String.length s - String.length suf) s) suf.

(** [c.isspace()] on the code points below 256 *)
Definition isspace (c : ascii) : bool :=
  let n := nat_of_ascii c in
  ((9 <=? n) && (n <=? 13)) || ((28 <=? n) && (n <=? 32))
  || (n =? 133) || (n =? 160).

(** [s.lstrip()] *)
Fixpoint lstrip (s : string) : string :=
  match s with
  | "" => ""
  | String c s' => if isspace c then lstrip s' else s
  end.

(** [s.rstrip()] *)
Fixpoint rstrip (s : string) : string :=
  match s with
  | "" => ""
  | String c s' =>
      match rstrip s' with
      | "" => if isspace c then "" else String c ""
      | r => String c r
      end
  end.

(** [s.strip()] *)
Definition strip (s : string) : string := lstrip (rstrip s).

(** [s.rstrip(c)] for a one-character set *)
Fixpoint rstrip_char (c : ascii) (s : string) : string :=
  match s with
  | "" => ""
  | String d s' =>
      match rstrip_char c s' with
      | "" => if Ascii.eqb d c then "" else String d ""
      | r => String d r
      end
  end.

(** [s.rfind(c) + 1]: one past the last occurrence of [c], 0 if none *)
Fixpoint rfind_succ (c : ascii) (s : string) : nat :=
  match s with
  | "" => 0
  | String d s' =>
      match rfind_succ c s' with
      | 0 => if Ascii.eqb d c then 1 else 0
      | S k => S (S k)
      end
  end.

(** [s == c * len(s)] *)
Fixpoint all_char (c : ascii) (s : string) : bool :=
  match s with
  | "" => true
  | String d s' => Ascii.eqb d c && all_char c s'
  end.

(** [s.split(c)] *)
Fixpoint split (c : ascii) (s : string) : list string :=
  match s with
  | "" => [""]
  | String d s' =>
      if Ascii.eqb d c then "" :: split c s'
      else match split c s' with
           | h :: t => String d h :: t
           | [] => [String d ""]
           end
  end.

(** [sep.join(l)] *)
Definition join (sep : string) (l : list string) : string := String.concat sep l.

(** [sub in s] *)
Fixpoint occurs (sub s : string) : bool :=
  startswith s sub ||
  match s with
  | "" => false
  | String _ s' => occurs sub s'
  end.

(** [s.count(sub)] for a non-empty [sub] that cannot overlap itself *)
Fixpoint count (sub s : string) : nat :=
  match s with
  | "" => 0
  | String _ s' => (if startswith s sub then 1 else 0) + count sub s'
  end.

End Str.

(** ** [posixpath] *)

Module posixpath.

Definition sep : ascii := "/"%char.

Definition isabs (p : string) : bool := Str.startswith p "/".

(** [os.path.join(a, b)] *)
Definition join (a b : string) : string :=
  if Str.startswith b "/" then b
  else if String.eqb a "" || Str.endswith a "/" then a +:+ b
  else a +:+ "/" +:+ b.

(** [os.path.dirname(p)] *)
Definition dirname (p : string) : string :=
  let i := Str.rfind_succ sep p in
  let head := Str.take i p in
  if negb (String.eqb head "") && negb (Str.all_char sep head)
  then Str.rstrip_char sep head
  else head.

(** The component loop of [normpath]; [new_comps] is kept with its last
    element first. *)
Fixpoint normpath_comps (initial_slashes : nat) (comps new_comps : list string)
  : list string :=
  match comps with
  | [] => rev new_comps
  | comp :: comps' =>
      if String.eqb comp "" || String.eqb comp "." then
        normpath_comps initial_slashes comps' new_comps
      else if negb (String.eqb comp "..")
              || ((initial_slashes =? 0) && bool_decide (new_comps = []))
              || match new_comps with
                 | last :: _ => String.eqb last ".."
                 | [] => false
                 end
      then normpath_comps initial_slashes comps' (comp :: new_comps)
      else normpath_comps initial_slashes comps' (tail new_comps)
  end.

(** [os.path.normpath(path)] *)
Definition normpath (path : string) : string :=
  if String.eqb path "" then "."
  else
    let initial_slashes :=
      if Str.startswith path "/" then
        if Str.startswith path "//" && negb (Str.startswith path "///")
        then 2 else 1
      else 0 in
    let comps := normpath_comps initial_slashes (Str.split sep path) [] in
    let path := Str.join "/" comps in
    let path := Str.take initial_slashes "//" +:+ path in
    if String.eqb path "" then "." else path.

(** [os.path.abspath(path)] with the current directory made explicit *)
Definition abspath (cwd path : string) : string :=
  normpath (if isabs path then path else join cwd path).

End posixpath.


(** ** The two regular-expression calls *)

Module re.

(** A match object of one of the four directive patterns: [start()],
    [end()] and [group(1)]. *)
Record Match := { m_start : nat; m_end : nat; group1 : string }.

(** The text matched by [\\cmd\{] for the command name [cmd]. *)
Definition opener (cmd : string) : string := "\" +:+ cmd +:+ "{".

(** The longest prefix without a closing brace: what the greedy class
    [[^}]+] consumes. *)
Fixpoint span_not_rbrace (s : string) : string :=
  match s with
  | "" => ""
  | String c s' => if Ascii.eqb c "}" then "" else String c (span_not_rbrace s')
  end.

(** [re.match(r'\\cmd\{([^}]+)\}', s)]: the pattern anchored at the first
    character of [s]; the result is [group(1)]. The class needs at least
    one character and must be followed by a closing brace; backtracking
    cannot help, because every shorter run is followed by a character of
    the class. *)
Definition match_directive (cmd s : string) : option string :=
  if Str.startswith s (opener cmd) then
    let rest := Str.drop (String.length (opener cmd)) s in
    let arg := span_not_rbrace rest in
    if (0 <? String.length arg) && (String.length arg <? String.length rest)
    then Some arg else None
  else None.

(** The scan of [finditer]: [pos] is the offset of the first character of
    [s] in the whole text, [skip] the number of characters still inside
    the previous match. *)
Fixpoint finditer_from (cmd : string) (pos skip : nat) (s : string) : list Match :=
  match s with
  | "" => []
  | String _ s' =>
      match skip with
      | S k => finditer_from cmd (S pos) k s'
      | O =>
          match match_directive cmd s with
          | Some arg =>
              let len := String.length (opener cmd) + String.length arg + 1 in
              {| m_start := pos; m_end := pos + len; group1 := arg |}
                :: finditer_from cmd (S pos) (len - 1) s'
          | None => finditer_from cmd (S pos) 0 s'
          end
      end
  end.

(** [list(re.finditer(r'\\cmd\{([^}]+)\}', content))] *)
Definition finditer (cmd content : string) : list Match :=
  finditer_from cmd 0 0 content.

(** The scan of [re.sub(lit + r'.*?\n', '', s)] for a literal [lit] that is
    not empty and has no line feed: [deleting] is set while the scan is
    inside a match, which ends with the first line feed. A match needs a
    line feed somewhere after the literal. *)
Fixpoint sub_to_eol_from (lit : string) (deleting : bool) (s : string) : string :=
  match s with
  | "" => ""
  | String c s' =>
      if deleting then
        sub_to_eol_from lit (negb (Ascii.eqb c Str.LF)) s'
      else if Str.startswith s lit
              && Str.contains Str.LF (Str.drop (String.length lit) s)
      then sub_to_eol_from lit true s'
      else String c (sub_to_eol_from lit false s')
  end.

Definition sub_to_eol (lit s : string) : string := sub_to_eol_from lit false s.

End re.

Import re.

(** ** The world: file system, current directory, console *)

Inductive node :=
| File (content : string)
| Dir.

Inductive diagnostic :=
| CouldNotRead (tex_file_path : string)
| ProcessingInclude (filename included_path : string)
| IncludedFileNotFound (filename : string)
| SearchedAt (included_path : string)
| AvailableTexFiles (search_dir : string) (available_files : list string)
| CreatingCombined (main_tex_file : string)
| ErrorCreatingCombined
| CombinedCreated (name : string).

Inductive exn :=
| NotADirectoryError (path : string)
| FileNotFoundError (path : string)
| IsADirectoryError (path : string).

Record World := {
  files : gmap string node;
  cwd : string;
  stdout : list diagnostic
}.

Definition abspath (w : World) (path : string) : string :=
  posixpath.abspath (cwd w) path.

Definition lookup_path (w : World) (path : string) : option node :=
  if String.eqb path "" then None else files w !! abspath w path.

(** [os.path.exists(path)] *)
Definition path_exists (w : World) (path : string) : bool :=
  bool_decide (is_Some (lookup_path w path)).

(** [open(path, 'r', ...).read()]; [None] stands for any [OSError]. *)
Definition read_text (w : World) (path : string) : option string :=
  match lookup_path w path with
  | Some (File content) => Some content
  | _ => None
  end.

Definition basename (p : string) : string :=
  Str.drop (Str.rfind_succ posixpath.sep p) p.

(** The entries of a directory: the last components of the paths whose
    parent it is. *)
Definition children (w : World) (dir : string) : list string :=
  let d := abspath w dir in
  basename <$>
    filter (fun k => posixpath.dirname k = d ∧ k ≠ d) (elements (dom (files w))).

(** ** The monad of the resolver *)

Inductive outcome (A : Type) :=
| Ret (a : A)
| Raise (e : exn).
Arguments Ret {A} a.
Arguments Raise {A} e.

Definition M (A : Type) : Type := World -> option (outcome A * World).

Definition ret {A} (a : A) : M A := fun w => Some (Ret a, w).

Definition out_of_fuel {A} : M A := fun _ => None.

Definition bind {A B} (m : M A) (k : A -> M B) : M B :=
  fun w =>
    match m w with
    | Some (Ret a, w') => k a w'
    | Some (Raise e, w') => Some (Raise e, w')
    | None => None
    end.

Definition gets {A} (f : World -> A) : M A := fun w => Some (Ret (f w), w).

Definition add_log (w : World) (log : list diagnostic) : World :=
  {| files := files w; cwd := cwd w; stdout := stdout w ++ log |}.

Definition print (d : diagnostic) : M unit := fun w => Some (Ret tt, add_log w [d]).

Declare Scope resolver_scope.
Delimit Scope resolver_scope with resolver.
Notation "'let*' x ':=' m 'in' k" := (bind m (fun x => k))
  (at level 10, x name, m at level 100, k at level 200) : resolver_scope.
Local Open Scope resolver_scope.

(** A [for] loop that updates one variable. *)
Fixpoint for_each {A S} (l : list A) (body : S -> A -> M S) (s : S) : M S :=
  match l with
  | [] => ret s
  | x :: l' => let* s' := body s x in for_each l' body s'
  end.

(** [os.listdir(path)] *)
Definition listdir (path : string) : M (list string) :=
  fun w =>
    match lookup_path w path with
    | Some Dir => Some (Ret (children w path), w)
    | Some (File _) => Some (Raise (NotADirectoryError path), w)
    | None => Some (Raise (FileNotFoundError path), w)
    end.

(** ** [process_tex_recursively] *)

(** The four directive patterns, in the order of the [patterns] list. *)
Definition patterns : list (string * string) :=
  [ ("input", "input"); ("include", "include"); ("subfile", "subfile");
    ("InputIfFileExists", "inputifexists") ].

(** Lines 115-120: the file name derived from [match.group(1)]. *)
Definition derive_filename (arg : string) : string :=
  let filename := Str.strip arg in
  if negb (Str.endswith filename ".tex") then filename +:+ ".tex" else filename.

(** Lines 122-136: where the derived file name is looked for. *)
Definition locate_include (w : World) (tex_file_path base_folder filename : string)
  : string :=
  let included_path :=
    if Str.contains "/" filename || Str.contains "\" filename then
      posixpath.join base_folder (Str.replace "\" posixpath.sep filename)
    else
      let current_dir := posixpath.dirname tex_file_path in
      let included_path := posixpath.join current_dir filename in
      if negb (path_exists w included_path)
      then posixpath.join base_folder filename
      else included_path in
  posixpath.normpath included_path.

(** Lines 147-152: the six substitutions, in order. *)
Definition strip_structure (included_content : string) : string :=
  let included_content := sub_to_eol "\documentclass" included_content in
  let included_content := sub_to_eol "\usepackage" included_content in
  let included_content := sub_to_eol "\begin{document}" included_content in
  let included_content := sub_to_eol "\end{document}" included_content in
  let included_content := sub_to_eol "\maketitle" included_content in
  let included_content := sub_to_eol "\tableofcontents" included_content in
  included_content.

Definition header (filename : string) : string :=
  Str.nl +:+ "% ========== Included from: " +:+ filename +:+ " ==========" +:+ Str.nl.

Definition footer (filename : string) : string :=
  Str.nl +:+ "% ========== End of: " +:+ filename +:+ " ==========" +:+ Str.nl.

(** Lines 147-157: what is done to the text of a fragment that is not the
    main file. *)
Definition clean_and_wrap (filename included_content : string) : string :=
  let included_content := Str.strip (strip_structure included_content) in
  if negb (String.eqb included_content "")
  then header filename +:+ included_content +:+ footer filename
  else included_content.

(** Lines 160-164: [result_content[:start] + included + result_content[end:]]. *)
Definition splice (result_content : string) (start_pos end_pos : nat)
    (included_content : string) : string :=
  Str.take start_pos result_content +:+ included_content
    +:+ Str.drop end_pos result_content.

Section Resolver.

(** [main_path] is a variable of the enclosing [create_combined_tex]. *)
Variable main_path : string.

(** Lines 139-157: the text that replaces a directive whose target
    exists; [recurse] is the recursive call. *)
Definition expansion
    (recurse : string -> string -> gset string -> M string)
    (base_folder : string) (processed_files : gset string)
    (filename included_path : string) : M string :=
  let* _ := print (ProcessingInclude filename included_path) in
  let* included_content := recurse included_path base_folder processed_files in
  let* is_main :=
    gets (fun w => String.eqb (abspath w included_path) (abspath w main_path)) in
  if negb is_main then ret (clean_and_wrap filename included_content)
  else ret included_content.

(** Lines 167-175: the warnings for a target that does not exist. *)
Definition report_missing (filename included_path : string) : M unit :=
  let* _ := print (IncludedFileNotFound filename) in
  let* _ := print (SearchedAt included_path) in
  let search_dir := posixpath.dirname included_path in
  let* dir_found := gets (fun w => path_exists w search_dir) in
  if dir_found then
    let* names := listdir search_dir in
    let available_files := filter (fun f => Str.endswith f ".tex" = true) names in
    match available_files with
    | [] => ret tt
    | _ => print (AvailableTexFiles search_dir available_files)
    end
  else ret tt.

(** The body of the inner loop (lines 115-175) for one match. *)
Definition process_match
    (recurse : string -> string -> gset string -> M string)
    (tex_file_path base_folder : string) (processed_files : gset string)
    (result_content : string) (m : Match) : M string :=
  let filename := derive_filename (group1 m) in
  let* included_path :=
    gets (fun w => locate_include w tex_file_path base_folder filename) in
  let* found := gets (fun w => path_exists w included_path) in
  if found then
    let* included_content :=
      expansion recurse base_folder processed_files filename included_path in
    ret (splice result_content (m_start m) (m_end m) included_content)
  else
    let* _ := report_missing filename included_path in
    ret result_content.

(** The two nested loops of lines 110-175. Offsets come from [content],
    splices go into [result_content]. *)
Definition process_patterns
    (recurse : string -> string -> gset string -> M string)
    (tex_file_path base_folder : string) (processed_files : gset string)
    (content : string) : M string :=
  for_each patterns
    (fun result_content '(cmd, _) =>
       let matches := finditer cmd content in
       for_each (rev matches)
         (process_match recurse tex_file_path base_folder processed_files)
         result_content)
    content.

(** Lines 82-177. Every recursive call is given [processed_files.copy()],
    and the first call a fresh set, so what a call adds to its set is never
    seen by its caller or by a sibling call: the set is passed as a value,
    and [add] gives the set one element larger. *)
Fixpoint process_tex_recursively (fuel : nat)
    (tex_file_path base_folder : string) (processed_files : gset string)
    : M string :=
  match fuel with
  | O => out_of_fuel
  | S fuel' =>
      let* abs_path := gets (fun w => abspath w tex_file_path) in
      if bool_decide (abs_path ∈ processed_files) then ret ""
      else
        let processed_files := {[abs_path]} ∪ processed_files in
        let* opened := gets (fun w => read_text w tex_file_path) in
        match opened with
        | None => let* _ := print (CouldNotRead tex_file_path) in ret ""
        | Some content =>
            process_patterns (process_tex_recursively fuel')
              tex_file_path base_folder processed_files content
        end
  end.

End Resolver.

(** The call of line 181: [Resolve(rootPath, baseDir)] of the design, with
    the root path given as folder and file name. *)
Definition Resolve (fuel : nat) (folder_path main_tex_file : string) : M string :=
  let main_path := posixpath.join folder_path main_tex_file in
  process_tex_recursively main_path fuel main_path folder_path ∅.

(** Recursion depth that is always enough: one level per file system node
    and one for a call that returns at the visited test. *)
Definition enough_fuel (w : World) : nat := size (files w) + 1.

(** ** The caller: [create_combined_tex] *)

(** [open(path, 'w').write(content)] *)
Definition write_text (path content : string) : M unit :=
  fun w =>
    match lookup_path w path with
    | Some Dir => Some (Raise (IsADirectoryError path), w)
    | _ =>
        match files w !! posixpath.dirname (abspath w path) with
        | Some Dir =>
            Some (Ret tt, {| files := <[abspath w path := File content]> (files w);
                             cwd := cwd w; stdout := stdout w |})
        | _ => Some (Raise (FileNotFoundError path), w)
        end
    end.

(** [try: m except Exception: handler] *)
Definition try_except {A} (m : M A) (handler : exn -> M A) : M A :=
  fun w =>
    match m w with
    | Some (Raise e, w') => handler e w'
    | r => r
    end.

(** Lines 74-192. *)
Definition create_combined_tex (fuel : nat)
    (folder_path main_tex_file output_name : string) : M (option string) :=
  let combined_path := posixpath.join folder_path (output_name +:+ ".tex") in
  let* _ := print (CreatingCombined main_tex_file) in
  try_except
    (let* combined_content := Resolve fuel folder_path main_tex_file in
     let* _ := write_text combined_path combined_content in
     let* _ := print (CombinedCreated (output_name +:+ ".tex")) in
     ret (Some (output_name +:+ ".tex")))
    (fun _ => let* _ := print ErrorCreatingCombined in ret None).

(** ** Running a computation on a fixed file system *)

(** The world with files [F], current directory [C] and an empty console. *)
Definition world0 (F : gmap string node) (C : string) : World :=
  {| files := F; cwd := C; stdout := [] |}.

(** The world with an empty console. *)
Definition quiet (w : World) : World :=
  {| files := files w; cwd := cwd w; stdout := [] |}.

(** Put [l] in front of the log of a run. *)
Definition prepend {A} (l : list diagnostic)
    (r : option (outcome A * list diagnostic))
  : option (outcome A * list diagnostic) :=
  (fun ol => (ol.1, l ++ ol.2)) <$> r.

(** [m] run in any world with files [F] and current directory [C] gives
    the outcome and appends the log of [r]; it stops for want of fuel when
    [r] is [None]. *)
Definition runs_to {A} (F : gmap string node) (C : string) (m : M A)
    (r : option (outcome A * list diagnostic)) : Prop :=
  ∀ w, files w = F → cwd w = C →
       m w = (fun ol => (ol.1, add_log w ol.2)) <$> r.

(** [m] only reads the file system, and it finishes when [G] holds. *)
Definition behaves {A} (F : gmap string node) (C : string) (G : Prop) (m : M A)
  : Prop :=
  ∃ r, runs_to F C m r ∧ (G → is_Some r).

(** More fuel never changes a result. *)
Definition refines {A} (m m' : M A) : Prop :=
  ∀ w r, m w = Some r → m' w = Some r.

(** The files not yet visited on the current branch. *)
Definition unvisited (F : gmap string node) (processed_files : gset string) : nat :=
  size (dom F ∖ processed_files).

(** [True] when the argument (or the derived name) has a path separator. *)
Definition has_separator (s : string) : bool :=
  Str.contains "/" s || Str.contains "\" s.

(** ** The splicing rule of the design

    Steps 3, 4 and 8 of the design, in its words: all matches of the four
    kinds in one list, processed by descending start offset, each replaced
    at its own range. *)

Definition all_matches (content : string) : list Match :=
  concat ((fun p => finditer p.1 content) <$> patterns).

Definition starts_after (e1 e2 : Match * string) : Prop :=
  m_start e2.1 ≤ m_start e1.1.

#[local] Instance starts_after_dec : RelDecision starts_after :=
  fun e1 e2 => decide (m_start e2.1 ≤ m_start e1.1).

Definition spec_splice_descending (content : string)
    (edits : list (Match * string)) : string :=
  foldl (fun result e => splice result (m_start e.1) (m_end e.1) e.2)
    content (merge_sort starts_after edits).

(** The text of the design: every match replaced in place by [repl], at
    its own range; [pos] is how far the text has been copied. *)
Fixpoint in_place (repl : Match -> string) (content : string) (pos : nat)
    (ms : list Match) : string :=
  match ms with
  | [] => Str.drop pos content
  | m :: rest =>
      Str.take (m_start m - pos) (Str.drop pos content) +:+ repl m
        +:+ in_place repl content (m_end m) rest
  end.

(** Matches in ascending order that do not overlap and lie within a text
    of length [n], none of them before [pos]. *)
Fixpoint well_placed (n pos : nat) (ms : list Match) : Prop :=
  match ms with
  | [] => pos ≤ n
  | m :: rest =>
      pos ≤ m_start m ∧ m_start m ≤ m_end m ∧ well_placed n (m_end m) rest
  end.

(** ** Example projects *)

(** A project directory [/proj], which is also the current directory. *)
Definition project (l : list (string * node)) : World :=
  {| files := list_to_map (("/proj", Dir) :: l); cwd := "/proj"; stdout := [] |}.

(** The outcome and the console of a finished run. *)
Definition observed {A} (r : option (outcome A * World))
  : option (outcome A * list diagnostic) :=
  (fun ow => (ow.1, stdout ow.2)) <$> r.

(** Two directives of different kinds in one fragment. *)
Definition two_kinds : World :=
  project [ ("/proj/main.tex", File "\input{a}\include{b}");
            ("/proj/a.tex", File "A");
            ("/proj/b.tex", File "B") ].

Definition two_kinds_in_place : string :=
  (header "a.tex" +:+ "A" +:+ footer "a.tex")
    +:+ (header "b.tex" +:+ "B" +:+ footer "b.tex").

(** A preamble file that is empty once stripped, a chapter, and a
    directive whose target is missing. *)
Definition missing_after_preamble : World :=
  project [ ("/proj/main.tex", File "\input{preamble}\include{ch1}\input{missing}");
            ("/proj/preamble.tex", File ("\usepackage{amsmath}" +:+ Str.nl));
            ("/proj/ch1.tex", File "B") ].

(** A section file whose last line has no line feed. *)
Definition unterminated_section : World :=
  project [ ("/proj/main.tex", File "\input{sec}");
            ("/proj/sec.tex",
             File ("\documentclass{article}" +:+ Str.nl +:+ "\begin{document}"
                   +:+ Str.nl +:+ "Hello" +:+ Str.nl +:+ "\end{document}")) ].

(** A includes B and B includes A. *)
Definition cycle : World :=
  project [ ("/proj/main.tex", File "a1 \input{b} a2");
            ("/proj/b.tex", File "b1 \input{main} b2") ].

Definition cycle_text : string :=
  "a1 " +:+ header "b.tex" +:+ "b1  b2" +:+ footer "b.tex" +:+ " a2".

(** B and C both include D. *)
Definition diamond : World :=
  project [ ("/proj/main.tex", File "\input{b}\input{c}");
            ("/proj/b.tex", File "B \input{d}");
            ("/proj/c.tex", File "C \input{d}");
            ("/proj/d.tex", File "D") ].

Definition wrapped_d : string :=
  Str.nl +:+ "% ========== Included from: d.tex ==========" +:+ Str.nl +:+ "D"
    +:+ Str.nl +:+ "% ========== End of: d.tex ==========".

Definition diamond_text : string :=
  (header "b.tex" +:+ "B " +:+ wrapped_d +:+ footer "b.tex")
    +:+ (header "c.tex" +:+ "C " +:+ wrapped_d +:+ footer "c.tex").

(** [b.tex] exists next to the including fragment and in the base
    directory. *)
Definition two_candidates : World :=
  project [ ("/proj/main.tex", File "\input{dir/a}");
            ("/proj/dir", Dir);
            ("/proj/dir/a.tex", File "\input{b}");
            ("/proj/dir/b.tex", File "near");
            ("/proj/b.tex", File "far") ].

(** The text [\input{}] inside the argument of a longer match. *)
Definition swallowed : World :=
  project [ ("/proj/main.tex", File "\input{a\input{}");
            ("/proj/a", Dir);
            ("/proj/a/input{.tex", File "Z") ].

(** A fragment that is only [\input{}]. *)
Definition only_empty_directive : World :=
  project [ ("/proj/main.tex", File "\input{}") ].

(** A directive whose argument goes through a regular file. *)
Definition file_as_directory : World :=
  project [ ("/proj/main.tex", File "\input{ch1.tex/x} and \input{ch1}");
            ("/proj/ch1.tex", File "B") ].

(** Texts of the examples, as the code of the resolver leaves them. *)
Definition two_kinds_text : string :=
  splice (header "a.tex" +:+ "A" +:+ footer "a.tex" +:+ "\include{b}") 9 20
    (header "b.tex" +:+ "B" +:+ footer "b.tex").

Definition missing_after_preamble_text : string :=
  "\include{ch1}\in" +:+ header "ch1.tex" +:+ "B" +:+ footer "ch1.tex".

Definition unterminated_section_text : string :=
  header "sec.tex" +:+ "Hello" +:+ Str.nl +:+ "\end{document}" +:+ footer "sec.tex".

Definition two_candidates_text : string :=
  header "dir/a.tex"
    +:+ "% ========== Included from: b.tex ==========" +:+ Str.nl +:+ "near"
    +:+ Str.nl +:+ "% ========== End of: b.tex =========="
    +:+ footer "dir/a.tex".

Definition swallowed_text : string :=
  header "a\input{.tex" +:+ "Z" +:+ footer "a\input{.tex".

(** ** What one loop puts in place of its matches *)

(** The text of the directive itself: [content[m.start():m.end()]]. *)
Definition directive_text (content : string) (m : Match) : string :=
  Str.take (m_end m - m_start m) (Str.drop (m_start m) content).

(** What the body of the inner loop (lines 115-175) splices in for the
    match [m] in the world [w]: the text of the expansion when the target
    exists, and nothing ([None], no splice) when it is missing. The
    expansion does not depend on the console, so it is taken from the run
    with an empty console. *)
Definition replacement_opt (main_path : string) (fuel : nat)
    (tex_file_path base_folder : string) (processed_files : gset string)
    (w : World) (m : Match) : option string :=
  let filename := derive_filename (group1 m) in
  let included_path := locate_include w tex_file_path base_folder filename in
  if path_exists w included_path then
    match expansion main_path (process_tex_recursively main_path fuel)
            base_folder processed_files filename included_path (quiet w) with
    | Some (Ret included_content, _) => Some included_content
    | _ => Some ""
    end
  else None.

(** The text found at the range of [m] after the loop: the expansion, or
    the directive itself when its target is missing. *)
Definition replacement (main_path : string) (fuel : nat)
    (tex_file_path base_folder : string) (processed_files : gset string)
    (w : World) (content : string) (m : Match) : string :=
  default (directive_text content m)
    (replacement_opt main_path fuel tex_file_path base_folder processed_files w m).

(** One pass of the inner loop on the text, the replacement being known. *)
Definition splice_step (repl : Match -> option string) (r : string) (m : Match)
  : string :=
  match repl m with
  | Some t => splice r (m_start m) (m_end m) t
  | None => r
  end.

(** Lines 171-175: the line that lists the [.tex] files of the directory
    searched, when there are some. *)
Definition available_listing (w : World) (search_dir : string) : list diagnostic :=
  match filter (fun f => Str.endswith f ".tex" = true) (children w search_dir) with
  | [] => []
  | available_files => [AvailableTexFiles search_dir available_files]
  end.

(** ** [find_main_tex] *)

Definition main_candidates : list string :=
  ["main.tex"; "document.tex"; "thesis.tex"; "paper.tex"].

(** The loop of lines 53-56, also that of lines 206-212 and 280-286: the
    first name of the list that exists in the folder. *)
Fixpoint first_existing (w : World) (folder_path : string)
    (candidates : list string) : option string :=
  match candidates with
  | [] => None
  | candidate :: rest =>
      if path_exists w (posixpath.join folder_path candidate)
      then Some candidate
      else first_existing w folder_path rest
  end.

(** The loop of lines 61-70: the first file of the list that can be read
    and contains [\documentclass]; a file that cannot be read gives a
    warning and the loop goes on. *)
Fixpoint first_with_documentclass (folder_path : string) (tex_files : list string)
  : M (option string) :=
  match tex_files with
  | [] => ret None
  | tex_file :: rest =>
      let tex_path := posixpath.join folder_path tex_file in
      let* opened := gets (fun w => read_text w tex_path) in
      match opened with
      | Some content =>
          if Str.occurs "\documentclass" content then ret (Some tex_file)
          else first_with_documentclass folder_path rest
      | None =>
          let* _ := print (CouldNotRead tex_file) in
          first_with_documentclass folder_path rest
      end
  end.

(** Lines 48-72. *)
Definition find_main_tex (folder_path : string) : M (option string) :=
  let* candidate := gets (fun w => first_existing w folder_path main_candidates) in
  match candidate with
  | Some c => ret (Some c)
  | None =>
      let* names := listdir folder_path in
      let tex_files := filter (fun f => Str.endswith f ".tex" = true) names in
      first_with_documentclass folder_path tex_files
  end.

(** The entry [tex_file] of the folder can be read and contains
    [\documentclass]. *)
Definition declares_class (w : World) (folder_path tex_file : string) : Prop :=
  ∃ content, read_text w (posixpath.join folder_path tex_file) = Some content
             ∧ Str.occurs "\documentclass" content = true.

(** ** The commands of [convert_individual_files] *)

(** [os.path.splitext(p)]: the extension starts at the last dot, when that
    dot is after the last slash and some character between the two is not
    a dot (the [while] loop of [genericpath._splitext] looks for it). *)
Definition splitext (p : string) : string * string :=
  let filenameIndex := Str.rfind_succ "/" p in
  let dotEnd := Str.rfind_succ "." p in
  if (filenameIndex <? dotEnd)
     && negb (Str.all_char "." (Str.take (dotEnd - 1 - filenameIndex)
                                  (Str.drop filenameIndex p)))
  then (Str.take (dotEnd - 1) p, Str.drop (dotEnd - 1) p)
  else (p, "").

Definition BIBFILE : string := "references.bib".

Definition bib_candidates : list string :=
  [BIBFILE; "References.bib"; "references.bib"; "bibliography.bib"; "IEEEabrv.bib"].

(** Lines 276-286: [bib_path], when one of the candidates exists. *)
Definition find_bibliography (w : World) (folder_path : string) : option string :=
  posixpath.join folder_path <$> first_existing w folder_path bib_candidates.

(** Line 294: the entries of the folder that are converted. *)
Definition converted_individually (filename : string) : bool :=
  Str.endswith filename ".tex" && negb (Str.startswith filename "combined_").

(** Lines 295-314: the command built for one entry. *)
Definition individual_command (pandoc_path folder_path : string)
    (bib_path : option string) (filename : string) : list string :=
  let tex_path := posixpath.join folder_path filename in
  let output_basename := (splitext filename).1 in
  let docx_path := posixpath.join folder_path (output_basename +:+ ".docx") in
  [pandoc_path; tex_path; "-o"; docx_path]
    ++ match bib_path with
       | Some b => ["--bibliography"; b; "--citeproc"]
       | None => []
       end
    ++ ["--from"; "latex"; "--to"; "docx"; "--standalone"].

(** The commands that the loop of lines 293-337 hands to [subprocess.run],
    in the order of the listing, once [check_pandoc] has given
    [pandoc_path]. The listing is taken once, before the first run, and a
    run that fails does not end the loop, so the commands depend on the
    folder as it is at the call only. *)
Definition individual_commands (pandoc_path folder_path : string)
  : M (list (list string)) :=
  let* bib_path := gets (fun w => find_bibliography w folder_path) in
  let* names := listdir folder_path in
  ret (individual_command pandoc_path folder_path bib_path
         <$> filter (fun f => converted_individually f = true) names).

(** ** More example projects *)

(** [main.tex] is a directory. *)
Definition candidate_is_directory : World :=
  project [ ("/proj/main.tex", Dir);
            ("/proj/paper.tex", File "\documentclass{article}") ].

(** None of the four usual names. *)
Definition no_candidate : World :=
  project [ ("/proj/notes.tex", File "plain notes");
            ("/proj/figures.tex", Dir);
            ("/proj/report.tex", File "\documentclass{report}");
            ("/proj/readme.md", File "\documentclass{article}") ].

(** A folder without files. *)
Definition empty_project : World := project [].

(** The cycle project after [create_combined_tex] was given the stem of the
    root file as output name. *)
Definition cycle_overwritten : World :=
  {| files := <["/proj/main.tex" := File cycle_text]> (files cycle);
     cwd := "/proj";
     stdout := [CreatingCombined "main.tex";
                ProcessingInclude "b.tex" "/proj/b.tex";
                ProcessingInclude "main.tex" "/proj/main.tex";
                CombinedCreated "main.tex"] |}.

(** * Facts about the string functions *)

Module StrFacts.
Import Str.

Lemma append_cons c s t : String c s +:+ t = String c (s +:+ t).
Proof. reflexivity. Qed.

Lemma append_nil_l t : "" +:+ t = t.
Proof. reflexivity. Qed.

Lemma length_append s t :
  String.length (s +:+ t) = String.length s + String.length t.
Proof.
  induction s as [|c s IH]; [done|].
  rewrite append_cons; simpl. by rewrite IH.
Qed.

Lemma drop_append s t : drop (String.length s) (s +:+ t) = t.
Proof. induction s as [|c s IH]; [by destruct t|]. by rewrite append_cons. Qed.

Lemma take_drop n s : take n s +:+ drop n s = s.
Proof.
  revert s. induction n as [|n IH]; intros [|c s]; try done.
  simpl. rewrite append_cons. by rewrite IH.
Qed.

Lemma endswith_append s suf : endswith (s +:+ suf) suf = true.
Proof.
  unfold endswith. rewrite length_append.
  replace (String.length s + String.length suf - String.length suf)
    with (String.length s) by lia.
  rewrite drop_append. apply String.eqb_refl.
Qed.

Lemma endswith_split s suf : endswith s suf = true → ∃ p, s = p +:+ suf.
Proof.
  unfold endswith. intros H. apply String.eqb_eq in H.
  set (n := String.length s - String.length suf) in *.
  exists (take n s). rewrite <- H. by rewrite take_drop.
Qed.

Lemma contains_append c s t :
  contains c (s +:+ t) = contains c s || contains c t.
Proof.
  induction s as [|d s IH]; [done|].
  rewrite append_cons; simpl. by rewrite IH, orb_assoc.
Qed.

Lemma space_is_not c d : isspace c = false → isspace d = true → Ascii.eqb d c = false.
Proof.
  intros Hc Hd. destruct (Ascii.eqb_spec d c) as [->|]; [congruence | done].
Qed.

Lemma contains_lstrip c s : isspace c = false → contains c (lstrip s) = contains c s.
Proof.
  intros Hc. induction s as [|d s IH]; [done|]. simpl.
  destruct (isspace d) eqn:Hd; [| done].
  by rewrite IH, (space_is_not c d).
Qed.

Lemma contains_rstrip c s : isspace c = false → contains c (rstrip s) = contains c s.
Proof.
  intros Hc. induction s as [|d s IH]; [done|]. simpl.
  rewrite <- IH. destruct (rstrip s) as [|e r]; [| done].
  destruct (isspace d) eqn:Hd; simpl; [| done].
  by rewrite (space_is_not c d).
Qed.

Lemma contains_strip c s : isspace c = false → contains c (strip s) = contains c s.
Proof. intros Hc. unfold strip. by rewrite contains_lstrip, contains_rstrip. Qed.

Lemma lstrip_append s d t :
  isspace d = false → lstrip (s +:+ String d t) = lstrip s +:+ String d t.
Proof.
  intros Hd. induction s as [|c s IH].
  - simpl. rewrite append_nil_l. simpl. by rewrite Hd.
  - rewrite append_cons. simpl. destruct (isspace c); [done|]. by rewrite append_cons.
Qed.

Lemma rstrip_append s t : t ≠ "" → rstrip t = t → rstrip (s +:+ t) = s +:+ t.
Proof.
  intros Hne Ht. induction s as [|c s IH]; [done|].
  rewrite append_cons. simpl. rewrite IH.
  destruct (s +:+ t) eqn:E; [| done].
  destruct s; [by rewrite append_nil_l in E | by rewrite append_cons in E].
Qed.

Lemma startswith_drop s p :
  startswith s p = true → s = p +:+ drop (String.length p) s.
Proof.
  revert s. induction p as [|a p IH]; intros s H.
  - by destruct s.
  - destruct s as [|c s]; [done|]. simpl in H.
    apply andb_prop in H as [H1 H2]. apply Ascii.eqb_eq in H1 as ->.
    rewrite append_cons. simpl. f_equal. by apply IH.
Qed.

Lemma startswith_append p s : startswith (p +:+ s) p = true.
Proof.
  induction p as [|a p IH]; [done|].
  rewrite append_cons. simpl. by rewrite Ascii.eqb_refl.
Qed.

Lemma append_assoc s t u : (s +:+ t) +:+ u = s +:+ t +:+ u.
Proof. induction s as [|c s IH]; [done|]. by rewrite !append_cons, IH. Qed.

Lemma length_take n s : n ≤ String.length s → String.length (take n s) = n.
Proof.
  revert s. induction n as [|n IH]; intros s H; [done|].
  destruct s as [|c s]; simpl in H; [lia|].
  simpl. rewrite IH; lia.
Qed.

Lemma take_append_le n s t : n ≤ String.length s → take n (s +:+ t) = take n s.
Proof.
  revert s. induction n as [|n IH]; intros s H; [done|].
  destruct s as [|c s]; simpl in H; [lia|].
  rewrite append_cons. simpl. rewrite IH; [done | lia].
Qed.

Lemma take_take n m s : n ≤ m → take n (take m s) = take n s.
Proof.
  revert m s. induction n as [|n IH]; intros m s H; [done|].
  destruct m as [|m]; [lia|]. destruct s as [|c s]; [done|].
  simpl. rewrite IH; [done | lia].
Qed.

Lemma take_split pos n s :
  pos ≤ n → take pos s +:+ take (n - pos) (drop pos s) = take n s.
Proof.
  revert n s. induction pos as [|pos IH]; intros n s H.
  - rewrite Nat.sub_0_r. reflexivity.
  - destruct n as [|n]; [lia|].
    destruct s as [|c s]; [simpl; by destruct (n - pos)|].
    simpl. rewrite append_cons. rewrite IH; [done | lia].
Qed.

Lemma drop_take_append n s t :
  n ≤ String.length s → drop n (take n s +:+ t) = t.
Proof.
  revert s. induction n as [|n IH]; intros s H; [done|].
  destruct s as [|c s]; simpl in H; [lia|].
  simpl. apply IH. lia.
Qed.

End StrFacts.

Import StrFacts.

(** * Facts about the derived file name *)

Lemma has_separator_derive arg :
  has_separator (derive_filename arg) = has_separator arg.
Proof.
  unfold has_separator, derive_filename.
  destruct (negb _); rewrite ?contains_append, !contains_strip by done; simpl;
    by rewrite ?orb_false_r.
Qed.

Lemma derive_filename_endswith arg :
  Str.endswith (derive_filename arg) ".tex" = true.
Proof.
  unfold derive_filename.
  destruct (Str.endswith (Str.strip arg) ".tex") eqn:E; simpl; [done|].
  apply endswith_append.
Qed.

Lemma strip_keeps_suffix arg :
  Str.endswith arg ".tex" = true → Str.endswith (Str.strip arg) ".tex" = true.
Proof.
  intros H. apply endswith_split in H as [p ->]. unfold Str.strip.
  rewrite rstrip_append by done.
  rewrite (lstrip_append p "." "tex") by done.
  apply endswith_append.
Qed.

Lemma derive_add_suffix X :
  Str.rstrip X = X → Str.endswith (Str.strip X) ".tex" = false →
  derive_filename (X +:+ ".tex") = derive_filename X.
Proof.
  intros Hr Hs. unfold derive_filename at 2. rewrite Hs; simpl.
  unfold derive_filename, Str.strip.
  rewrite rstrip_append by done.
  rewrite (lstrip_append X "." "tex") by done.
  rewrite endswith_append; simpl. by rewrite Hr.
Qed.

(** * Facts about runs on a fixed file system *)

Lemma add_log_nil w : add_log w [] = w.
Proof. destruct w; unfold add_log; simpl. by rewrite app_nil_r. Qed.

Lemma add_log_app w l1 l2 : add_log (add_log w l1) l2 = add_log w (l1 ++ l2).
Proof. unfold add_log; simpl. by rewrite app_assoc. Qed.

Section Runs.
Context (F : gmap string node) (C : string).

Lemma quiet_at w : files w = F → cwd w = C → quiet w = world0 F C.
Proof. intros <- <-. reflexivity. Qed.

Lemma runs_ret {A} (a : A) : runs_to F C (ret a) (Some (Ret a, [])).
Proof. intros w _ _. unfold ret; simpl. by rewrite add_log_nil. Qed.

Lemma runs_print d : runs_to F C (print d) (Some (Ret tt, [d])).
Proof. intros w _ _. reflexivity. Qed.

Lemma runs_out_of_fuel {A} : runs_to F C (@out_of_fuel A) None.
Proof. intros w _ _. reflexivity. Qed.

Lemma runs_gets {A} (f : World → A) :
  (∀ w, f w = f (quiet w)) →
  runs_to F C (gets f) (Some (Ret (f (world0 F C)), [])).
Proof.
  intros Hf w HF HC. unfold gets; simpl.
  by rewrite add_log_nil, (Hf w), (quiet_at w HF HC).
Qed.

Lemma lookup_path_at w path :
  files w = F → cwd w = C → lookup_path w path = lookup_path (world0 F C) path.
Proof. intros HF HC. unfold lookup_path, abspath. by rewrite HF, HC. Qed.

Lemma runs_listdir path : ∃ o, runs_to F C (listdir path) (Some (o, [])).
Proof.
  destruct (lookup_path (world0 F C) path) as [[c|]|] eqn:E;
    [ exists (Raise (NotADirectoryError path))
    | exists (Ret (children (world0 F C) path))
    | exists (Raise (FileNotFoundError path)) ];
    intros w HF HC; unfold listdir;
    rewrite (lookup_path_at w path HF HC), E; simpl; rewrite add_log_nil;
    try done.
  do 3 f_equal. unfold children, abspath. by rewrite HF, HC.
Qed.

Lemma runs_bind_ret {A B} (m : M A) (k : A → M B) a l r :
  runs_to F C m (Some (Ret a, l)) → runs_to F C (k a) r →
  runs_to F C (bind m k) (prepend l r).
Proof.
  intros Hm Hk w HF HC. unfold bind. rewrite (Hm w HF HC); simpl.
  rewrite (Hk (add_log w l)) by done.
  destruct r as [[o l']|]; simpl; [|done]. by rewrite add_log_app.
Qed.

Lemma runs_bind_raise {A B} (m : M A) (k : A → M B) e l :
  runs_to F C m (Some (Raise e, l)) → runs_to F C (bind m k) (Some (Raise e, l)).
Proof. intros Hm w HF HC. unfold bind. by rewrite (Hm w HF HC). Qed.

Lemma runs_bind_none {A B} (m : M A) (k : A → M B) :
  runs_to F C m None → runs_to F C (bind m k) None.
Proof. intros Hm w HF HC. unfold bind. by rewrite (Hm w HF HC). Qed.

Lemma behaves_ret {A} G (a : A) : behaves F C G (ret a).
Proof. eexists; split; [apply runs_ret | eauto]. Qed.

Lemma behaves_print G d : behaves F C G (print d).
Proof. eexists; split; [apply runs_print | eauto]. Qed.

Lemma behaves_listdir G path : behaves F C G (listdir path).
Proof.
  destruct (runs_listdir path) as [o Ho]. eexists; split; [exact Ho | eauto].
Qed.

Lemma behaves_bind {A B} G (m : M A) (k : A → M B) :
  behaves F C G m → (∀ a, behaves F C G (k a)) → behaves F C G (bind m k).
Proof.
  intros [[[[a|e] l]|] [Hm Gm]] Hk.
  - destruct (Hk a) as [r [Hr Gr]].
    exists (prepend l r); split; [by eapply runs_bind_ret |].
    intros HG. destruct (Gr HG) as [x ->]. by eexists.
  - exists (Some (Raise e, l)); split; [by apply runs_bind_raise | eauto].
  - exists None; split; [by apply runs_bind_none |].
    intros HG. by destruct (Gm HG).
Qed.

Lemma behaves_gets_bind {A B} G (f : World → A) (k : A → M B) :
  (∀ w, f w = f (quiet w)) → behaves F C G (k (f (world0 F C))) →
  behaves F C G (bind (gets f) k).
Proof.
  intros Hf [r [Hr Gr]].
  exists (prepend [] r); split;
    [eapply runs_bind_ret; [by apply runs_gets | done] |].
  intros HG. destruct (Gr HG) as [x ->]. by eexists.
Qed.

Lemma behaves_for_each {A S} G (l : list A) (body : S → A → M S) :
  (∀ s x, behaves F C G (body s x)) → ∀ s, behaves F C G (for_each l body s).
Proof.
  intros Hbody. induction l as [|x l IH]; intros s; simpl.
  - apply behaves_ret.
  - apply behaves_bind; auto.
Qed.

Lemma behaves_weaken {A} (G G' : Prop) (m : M A) :
  (G' → G) → behaves F C G m → behaves F C G' m.
Proof. intros HG [r [Hr Gr]]. exists r; split; auto. Qed.

Section Body.
Context (main_path : string) (G : Prop)
        (recurse : string → string → gset string → M string)
        (base : string) (v : gset string)
        (Hrec : ∀ p, behaves F C G (recurse p base v)).

Lemma behaves_expansion fn p :
  behaves F C G (expansion main_path recurse base v fn p).
Proof.
  unfold expansion.
  apply behaves_bind; [apply behaves_print | intros _].
  apply behaves_bind; [apply Hrec | intros c].
  apply behaves_gets_bind; [reflexivity |].
  destruct (negb _); apply behaves_ret.
Qed.

Lemma behaves_report_missing fn p : behaves F C G (report_missing fn p).
Proof.
  unfold report_missing.
  apply behaves_bind; [apply behaves_print | intros _].
  apply behaves_bind; [apply behaves_print | intros _].
  apply behaves_gets_bind; [reflexivity |].
  destruct (path_exists _ _); [| apply behaves_ret].
  apply behaves_bind; [apply behaves_listdir | intros names].
  destruct (filter _ names); [apply behaves_ret | apply behaves_print].
Qed.

Lemma behaves_process_match tex result m :
  behaves F C G (process_match main_path recurse tex base v result m).
Proof.
  unfold process_match.
  apply behaves_gets_bind; [reflexivity |].
  apply behaves_gets_bind; [reflexivity |].
  destruct (path_exists _ _).
  - apply behaves_bind; [apply behaves_expansion | intros c; apply behaves_ret].
  - apply behaves_bind; [apply behaves_report_missing | intros _; apply behaves_ret].
Qed.

Lemma behaves_process_patterns tex content :
  behaves F C G (process_patterns main_path recurse tex base v content).
Proof.
  unfold process_patterns. apply behaves_for_each.
  intros s [cmd ?]. apply behaves_for_each.
  intros s' m. apply behaves_process_match.
Qed.

End Body.

Lemma unvisited_insert p v :
  is_Some (F !! p) → p ∉ v → unvisited F ({[p]} ∪ v) < unvisited F v.
Proof.
  intros Hp Hv. unfold unvisited. apply elem_of_dom in Hp.
  apply subset_size. split.
  - intros x. rewrite !elem_of_difference, elem_of_union. tauto.
  - intros Hsub. specialize (Hsub p).
    rewrite !elem_of_difference, elem_of_union, elem_of_singleton in Hsub.
    tauto.
Qed.

Lemma read_text_in_files tex c :
  read_text (world0 F C) tex = Some c → is_Some (F !! posixpath.abspath C tex).
Proof.
  unfold read_text, lookup_path. destruct (String.eqb tex ""); [done|].
  simpl. unfold abspath; simpl. destruct (F !! _); [eauto | done].
Qed.

(** The resolver only reads the file system, and it finishes as soon as
    the fuel exceeds the number of files not yet visited. *)
Lemma behaves_process main fuel :
  ∀ tex base v,
    behaves F C (unvisited F v + 1 ≤ fuel)
      (process_tex_recursively main fuel tex base v).
Proof.
  induction fuel as [|fuel IH]; intros tex base v.
  - exists None; split; [apply runs_out_of_fuel | lia].
  - cbn [process_tex_recursively].
    apply behaves_gets_bind; [reflexivity |].
    case_bool_decide as Hv; [apply behaves_ret |].
    apply behaves_gets_bind; [reflexivity |].
    destruct (read_text (world0 F C) tex) as [content|] eqn:E.
    + apply behaves_process_patterns. intros p.
      eapply behaves_weaken; [| apply IH].
      intros HG. apply read_text_in_files in E.
      pose proof (unvisited_insert _ _ E Hv). unfold abspath; simpl. lia.
    + apply behaves_bind; [apply behaves_print | intros _; apply behaves_ret].
Qed.

End Runs.

(** * More fuel never changes a result *)

Lemma refines_refl {A} (m : M A) : refines m m.
Proof. by intros w r. Qed.

Lemma refines_bind {A B} (m m' : M A) (k k' : A → M B) :
  refines m m' → (∀ a, refines (k a) (k' a)) → refines (bind m k) (bind m' k').
Proof.
  intros Hm Hk w r. unfold bind.
  destruct (m w) as [[[a|e] w1]|] eqn:E; [| |done].
  - rewrite (Hm _ _ E). apply Hk.
  - by rewrite (Hm _ _ E).
Qed.

Lemma refines_for_each {A S} (l : list A) (body body' : S → A → M S) :
  (∀ s x, refines (body s x) (body' s x)) →
  ∀ s, refines (for_each l body s) (for_each l body' s).
Proof.
  intros Hb. induction l as [|x l IH]; intros s; simpl.
  - apply refines_refl.
  - apply refines_bind; auto.
Qed.

Lemma refines_process_patterns main rec rec' tex base v content :
  (∀ p, refines (rec p base v) (rec' p base v)) →
  refines (process_patterns main rec tex base v content)
          (process_patterns main rec' tex base v content).
Proof.
  intros Hrec. unfold process_patterns. apply refines_for_each.
  intros s [cmd ?]. apply refines_for_each. intros s' m.
  unfold process_match.
  apply refines_bind; [apply refines_refl | intros p].
  apply refines_bind; [apply refines_refl | intros [|]]; [| apply refines_refl].
  apply refines_bind; [| intros; apply refines_refl].
  unfold expansion.
  apply refines_bind; [apply refines_refl | intros _].
  apply refines_bind; [apply Hrec | intros; apply refines_refl].
Qed.

Lemma process_fuel_S main fuel :
  ∀ tex base v,
    refines (process_tex_recursively main fuel tex base v)
            (process_tex_recursively main (S fuel) tex base v).
Proof.
  induction fuel as [|fuel IH]; intros tex base v; [by intros w r|].
  remember (S fuel) as n eqn:Hn.
  cbn [process_tex_recursively]. subst n. cbn [process_tex_recursively].
  apply refines_bind; [apply refines_refl | intros a].
  case_bool_decide; [apply refines_refl |].
  apply refines_bind; [apply refines_refl | intros [content|]];
    [| apply refines_refl].
  apply refines_process_patterns. intros p. apply IH.
Qed.

Lemma process_fuel_le main fuel fuel' tex base v :
  fuel ≤ fuel' →
  refines (process_tex_recursively main fuel tex base v)
          (process_tex_recursively main fuel' tex base v).
Proof.
  induction 1 as [|n Hle IH]; [apply refines_refl |].
  intros w r Hr. by apply process_fuel_S, IH.
Qed.

(** With [enough_fuel] the resolver finishes, and every larger amount of
    fuel gives the same outcome and the same log. *)
Lemma Resolve_total w folder_path main_tex_file :
  ∃ o log, ∀ fuel, enough_fuel w ≤ fuel →
    Resolve fuel folder_path main_tex_file w = Some (o, add_log w log).
Proof.
  set (main_path := posixpath.join folder_path main_tex_file).
  destruct (behaves_process (files w) (cwd w) main_path (enough_fuel w)
              main_path folder_path ∅) as [r [Hr Gr]].
  destruct Gr as [[o log] ->].
  - unfold unvisited, enough_fuel.
    rewrite difference_empty_L, size_dom. lia.
  - exists o, log. intros fuel Hfuel.
    apply (process_fuel_le main_path _ _ _ _ _ Hfuel).
    exact (Hr w eq_refl eq_refl).
Qed.

(** A run changes nothing but the console, and what it appends does not
    depend on what the console held. *)
Lemma process_read_only main fuel tex base v w o w' :
  process_tex_recursively main fuel tex base v w = Some (o, w') →
  ∃ log, w' = add_log w log ∧
    ∀ w2, files w2 = files w → cwd w2 = cwd w →
      process_tex_recursively main fuel tex base v w2 = Some (o, add_log w2 log).
Proof.
  intros Hrun.
  destruct (behaves_process (files w) (cwd w) main fuel tex base v)
    as [r [Hr _]].
  rewrite (Hr w) in Hrun by done.
  destruct r as [[o' log]|]; [|done]. simpl in Hrun.
  injection Hrun as -> <-. exists log. split; [done|].
  intros w2 HF HC. by rewrite (Hr w2).
Qed.

(** * Facts about the directive patterns *)

Lemma span_not_rbrace_spec s :
  Str.contains "}" (span_not_rbrace s) = false ∧
  (String.length (span_not_rbrace s) < String.length s →
   ∃ rest, s = span_not_rbrace s +:+ "}" +:+ rest).
Proof.
  induction s as [|c s [IH1 IH2]]; [split; [done | simpl; lia]|].
  simpl. destruct (Ascii.eqb_spec c "}") as [->|Hc].
  - split; [done|]. intros _. by exists s.
  - split.
    + simpl. rewrite IH1. by destruct (Ascii.eqb_spec c "}").
    + simpl. intros Hlt. destruct IH2 as [rest Hrest]; [lia|].
      exists rest. rewrite append_cons. by f_equal.
Qed.

Lemma match_directive_Some cmd s arg :
  match_directive cmd s = Some arg →
  arg ≠ "" ∧ Str.contains "}" arg = false ∧
  ∃ rest, s = opener cmd +:+ arg +:+ "}" +:+ rest.
Proof.
  unfold match_directive.
  destruct (Str.startswith s (opener cmd)) eqn:Hp; [|done].
  set (rest := Str.drop _ s).
  destruct (span_not_rbrace_spec rest) as [Hc Hr].
  destruct ((0 <? String.length (span_not_rbrace rest))
            && (String.length (span_not_rbrace rest) <? String.length rest))
    eqn:Hb; [|done].
  intros [= <-]. apply andb_prop in Hb as [H0 H1].
  apply Nat.ltb_lt in H0, H1. split; [|split; [done|]].
  - intros E. rewrite E in H0. simpl in H0. lia.
  - destruct (Hr H1) as [r Er]. exists r.
    rewrite <- Er. by apply startswith_drop.
Qed.

Lemma match_directive_empty_argument cmd rest :
  match_directive cmd (opener cmd +:+ "}" +:+ rest) = None.
Proof.
  unfold match_directive. rewrite startswith_append, drop_append. reflexivity.
Qed.

Lemma finditer_from_sound cmd s :
  ∀ pos skip m, m ∈ finditer_from cmd pos skip s →
    ∃ i, m_start m = pos + i ∧
         match_directive cmd (Str.drop i s) = Some (group1 m) ∧
         m_end m = m_start m + String.length (opener cmd)
                   + String.length (group1 m) + 1.
Proof.
  induction s as [|c s IH]; intros pos skip m Hm; [by apply elem_of_nil in Hm|].
  simpl in Hm. destruct skip as [|k].
  - destruct (match_directive cmd (String c s)) as [arg|] eqn:E.
    + apply elem_of_cons in Hm as [-> | Hm].
      * exists 0. simpl. split; [lia | split; [done | lia]].
      * destruct (IH _ _ _ Hm) as (i & H1 & H2 & H3).
        exists (S i). split; [lia | done].
    + destruct (IH _ _ _ Hm) as (i & H1 & H2 & H3).
      exists (S i). split; [lia | done].
  - destruct (IH _ _ _ Hm) as (i & H1 & H2 & H3).
    exists (S i). split; [lia | done].
Qed.

Lemma finditer_sound cmd content m :
  m ∈ finditer cmd content →
  group1 m ≠ "" ∧ Str.contains "}" (group1 m) = false ∧
  (∃ rest, Str.drop (m_start m) content
           = opener cmd +:+ group1 m +:+ "}" +:+ rest) ∧
  m_end m = m_start m + String.length (opener cmd)
            + String.length (group1 m) + 1.
Proof.
  intros Hm. destruct (finditer_from_sound _ _ _ _ _ Hm) as (i & H1 & H2 & H3).
  simpl in H1. subst i.
  destruct (match_directive_Some _ _ _ H2) as (Ha & Hb & Hc). done.
Qed.

Lemma process_no_directive main fuel tex base v w content :
  abspath w tex ∉ v → read_text w tex = Some content →
  (∀ cmd, cmd ∈ patterns.*1 → finditer cmd content = []) →
  process_tex_recursively main (S fuel) tex base v w = Some (Ret content, w).
Proof.
  intros Hv Hread Hnone. cbn [process_tex_recursively].
  unfold bind at 1, gets at 1. rewrite bool_decide_eq_false_2 by done.
  unfold bind at 1, gets at 1. rewrite Hread.
  unfold process_patterns, patterns. cbn [for_each].
  rewrite !Hnone by (simpl; set_solver).
  reflexivity.
Qed.

(** * Splicing from right to left within one kind

    The matches of one pattern are in ascending order, disjoint and inside
    the text; replacing them from the last to the first at their original
    offsets gives the text with every match replaced in place. This is what
    the comment on the inner loop promises, for one kind. *)

Lemma well_placed_le n pos ms : well_placed n pos ms → pos ≤ n.
Proof.
  revert pos. induction ms as [|m ms IH]; intros pos; simpl; [done|].
  intros (H1 & H2 & H3). specialize (IH _ H3). lia.
Qed.

Lemma well_placed_earlier n p q ms :
  p ≤ q → well_placed n q ms → well_placed n p ms.
Proof.
  destruct ms as [|m ms]; simpl; [lia|].
  intros Hpq (H1 & H2 & H3). repeat split; [lia | done | done].
Qed.

Lemma right_to_left repl content ms :
  ∀ pos, well_placed (String.length content) pos ms →
    foldr (fun m r => splice r (m_start m) (m_end m) (repl m)) content ms
    = Str.take pos content +:+ in_place repl content pos ms.
Proof.
  induction ms as [|m ms IH]; intros pos; simpl.
  - intros _. by rewrite take_drop.
  - intros (H1 & H2 & H3). rewrite (IH _ H3).
    pose proof (well_placed_le _ _ _ H3) as Hle.
    unfold splice.
    rewrite take_append_le by (rewrite length_take; lia).
    rewrite take_take by done.
    rewrite drop_take_append by done.
    rewrite <- (take_split pos (m_start m) content) by done.
    by rewrite !append_assoc.
Qed.

Lemma finditer_from_well_placed cmd s :
  ∀ pos skip, skip ≤ String.length s →
    well_placed (pos + String.length s) (pos + skip)
      (finditer_from cmd pos skip s).
Proof.
  induction s as [|c s IH]; intros pos skip Hskip.
  - simpl in *. lia.
  - cbn [finditer_from]. cbn [String.length] in *.
    destruct skip as [|k].
    + destruct (match_directive cmd (String c s)) as [arg|] eqn:E.
      * destruct (match_directive_Some _ _ _ E) as (_ & _ & rest & Hs).
        apply (f_equal String.length) in Hs. rewrite !length_append in Hs.
        cbn [String.length] in Hs.
        set (len := String.length (opener cmd) + String.length arg + 1) in *.
        cbn [well_placed m_start m_end].
        split; [lia|]. split; [lia|].
        specialize (IH (S pos) (len - 1)).
        replace (S pos + String.length s)
          with (pos + S (String.length s)) in IH by lia.
        replace (S pos + (len - 1)) with (pos + len) in IH by lia.
        apply IH. lia.
      * apply (well_placed_earlier _ _ (S pos + 0)); [lia|].
        replace (pos + S (String.length s))
          with (S pos + String.length s) by lia.
        apply IH. lia.
    + replace (pos + S (String.length s)) with (S pos + String.length s) by lia.
      replace (pos + S k) with (S pos + k) by lia.
      apply IH. lia.
Qed.

Lemma one_kind_in_place repl cmd content :
  foldl (fun r m => splice r (m_start m) (m_end m) (repl m)) content
    (rev (finditer cmd content))
  = in_place repl content 0 (finditer cmd content).
Proof.
  assert (Hfold : ∀ (l : list Match) r0,
            foldl (fun r m => splice r (m_start m) (m_end m) (repl m)) r0 (rev l)
            = foldr (fun m r => splice r (m_start m) (m_end m) (repl m)) r0 l).
  { induction l as [|m l IH]; intros r0; [done|].
    simpl. by rewrite foldl_app, IH. }
  rewrite Hfold.
  rewrite (right_to_left repl content _ 0); [done |].
  apply (finditer_from_well_placed cmd content 0 0). lia.
Qed.

(** * A missing target

    The step for a match whose target does not exist leaves the text as it
    is and prints the two warnings, and the list of [.tex] files when the
    directory searched has some. (When the directory searched is a regular
    file, [os.listdir] raises instead.) *)

Lemma missing_target_no_splice main_path recurse tex base v result m w :
  let filename := derive_filename (group1 m) in
  let included_path := locate_include w tex base filename in
  path_exists w included_path = false →
  (∀ c, lookup_path w (posixpath.dirname included_path) ≠ Some (File c)) →
  ∃ listing,
    process_match main_path recurse tex base v result m w
    = Some (Ret result,
            add_log w (IncludedFileNotFound filename
                       :: SearchedAt included_path :: listing)).
Proof.
  intros filename included_path Hmissing Hdir.
  unfold process_match. fold filename.
  unfold bind at 1, gets at 1. fold included_path.
  unfold bind at 1, gets at 1. rewrite Hmissing.
  unfold report_missing.
  unfold bind at 1. unfold bind at 1, print at 1.
  unfold bind at 1, print at 1. unfold bind at 1, gets at 1.
  set (w2 := add_log (add_log w _) _).
  assert (Hw2 : w2 = add_log w [IncludedFileNotFound filename;
                                SearchedAt included_path]).
  { unfold w2. by rewrite add_log_app. }
  set (search_dir := posixpath.dirname included_path) in *.
  replace (path_exists w2 search_dir) with (path_exists w search_dir) by done.
  destruct (path_exists w search_dir) eqn:Hsd.
  - unfold bind at 1, listdir.
    replace (lookup_path w2 search_dir) with (lookup_path w search_dir) by done.
    unfold path_exists in Hsd. apply bool_decide_eq_true in Hsd as [nd Hnd].
    rewrite Hnd. destruct nd as [c|]; [by destruct (Hdir c)|].
    destruct (filter _ _) as [|f fs].
    + exists []. unfold ret. by rewrite Hw2.
    + eexists [_]. unfold print, ret. rewrite Hw2. by rewrite add_log_app.
  - exists []. unfold ret. by rewrite Hw2.
Qed.

(** * The claims *)

(** C1 (defect in the code). The design wants the matches of all four kinds
    in one list, spliced by descending start offset, so that the contribution
    of a fragment is its text with every directive replaced in place. The
    code runs one loop per kind: offsets are taken from the original
    [content], splices go into [result_content], and the offsets of the
    second kind are stale once the first kind has changed the length of the
    text. For [\input{a}\include{b}] the matches are at 0-9 and 9-20; after
    [\input{a}] is expanded the second splice removes characters 9-20 of the
    expansion of [a.tex] instead of [\include{b}]. The rule of the design
    gives the in-place text; the code gives another one. *)
Theorem stale_offsets_across_kinds :
  observed (Resolve (enough_fuel two_kinds) "/proj" "main.tex" two_kinds)
    = Some (Ret two_kinds_text,
            [ProcessingInclude "a.tex" "/proj/a.tex";
             ProcessingInclude "b.tex" "/proj/b.tex"])
  ∧ (fun m => (m_start m, m_end m)) <$> all_matches "\input{a}\include{b}"
    = [(0, 9); (9, 20)]
  ∧ spec_splice_descending "\input{a}\include{b}"
      (zip (all_matches "\input{a}\include{b}")
           [header "a.tex" +:+ "A" +:+ footer "a.tex";
            header "b.tex" +:+ "B" +:+ footer "b.tex"])
    = two_kinds_in_place
  ∧ two_kinds_text ≠ two_kinds_in_place.
Proof.
  repeat split; try (vm_compute; reflexivity).
  apply String.eqb_neq. vm_compute. reflexivity.
Qed.

(** C2. Whatever the inclusion graph, [Resolve] finishes: with
    [enough_fuel] (one level per file system node, plus one) it returns, and
    every larger amount of fuel returns the same outcome and log. A call
    whose absolute path is already in the visited set returns the empty text
    at once, without reading or printing, and the directive that led to it is
    replaced by the empty text. In the example, A includes B and B includes
    A: the second occurrence of A contributes nothing. *)
Theorem cycle_terminates :
  ∀ w folder_path main_tex_file,
    let main_path := posixpath.join folder_path main_tex_file in
    (∃ o log, ∀ fuel, enough_fuel w ≤ fuel →
       Resolve fuel folder_path main_tex_file w = Some (o, add_log w log))
    ∧ (∀ fuel tex base v, abspath w tex ∈ v →
         process_tex_recursively main_path (S fuel) tex base v w
         = Some (Ret "", w))
    ∧ (∀ fuel base v filename included_path, abspath w included_path ∈ v →
         expansion main_path (process_tex_recursively main_path (S fuel))
           base v filename included_path w
         = Some (Ret "", add_log w [ProcessingInclude filename included_path]))
    ∧ observed (Resolve (enough_fuel cycle) "/proj" "main.tex" cycle)
      = Some (Ret cycle_text,
              [ProcessingInclude "b.tex" "/proj/b.tex";
               ProcessingInclude "main.tex" "/proj/main.tex"]).
Proof.
  intros w folder_path main_tex_file main_path.
  split; [apply Resolve_total |].
  assert (Hvisited : ∀ fuel tex base v w1, abspath w1 tex ∈ v →
            process_tex_recursively main_path (S fuel) tex base v w1
            = Some (Ret "", w1)).
  { intros fuel tex base v w1 Hin. cbn [process_tex_recursively].
    unfold bind, gets. by rewrite bool_decide_eq_true_2. }
  split; [intros; by apply Hvisited |].
  split; [| vm_compute; reflexivity].
  intros fuel base v filename included_path Hin.
  unfold expansion. unfold bind at 1, print at 1.
  unfold bind at 1. rewrite Hvisited by done.
  unfold bind, gets. by destruct (negb _).
Qed.

Lemma cycle_terminates_witness :
  (∃ o log, Resolve 4 "/proj" "main.tex" cycle = Some (o, add_log cycle log))
  ∧ process_tex_recursively "/proj/main.tex" 1 "main.tex" "/proj"
      {["/proj/main.tex"]} cycle = Some (Ret "", cycle)
  ∧ expansion "/proj/main.tex" (process_tex_recursively "/proj/main.tex" 1)
      "/proj" {["/proj/main.tex"]} "main.tex" "/proj/main.tex" cycle
    = Some (Ret "", add_log cycle [ProcessingInclude "main.tex" "/proj/main.tex"]).
Proof.
  destruct (cycle_terminates cycle "/proj" "main.tex") as (H1 & H2 & H3 & _).
  split; [| split].
  - destruct H1 as (o & log & H). exists o, log. apply H. vm_compute. lia.
  - apply (H2 0). apply elem_of_singleton. vm_compute. reflexivity.
  - apply (H3 0). apply elem_of_singleton. vm_compute. reflexivity.
Defined.

(** C3. An argument without a path separator is looked for next to the
    current fragment first and, only when nothing exists there, in the base
    folder; an argument with a separator ("/" or a backslash) is joined to
    the base folder. Trimming and the suffix never add or remove a
    separator, so the test on the derived name is the test on the argument.
    In the example [dir/a.tex] contains [\input{b}], both [dir/b.tex] and
    [b.tex] of the base folder exist, and [dir/b.tex] is chosen. *)
Theorem same_directory_first :
  (∀ w tex_file_path base_folder arg,
     let filename := derive_filename arg in
     locate_include w tex_file_path base_folder filename =
     posixpath.normpath
       (if has_separator arg then
          posixpath.join base_folder (Str.replace "\" "/" filename)
        else if path_exists w
                  (posixpath.join (posixpath.dirname tex_file_path) filename)
             then posixpath.join (posixpath.dirname tex_file_path) filename
             else posixpath.join base_folder filename))
  ∧ path_exists two_candidates "/proj/dir/b.tex" = true
  ∧ path_exists two_candidates "/proj/b.tex" = true
  ∧ locate_include two_candidates "/proj/dir/a.tex" "/proj" (derive_filename "b")
    = "/proj/dir/b.tex"
  ∧ observed (Resolve (enough_fuel two_candidates) "/proj" "main.tex" two_candidates)
    = Some (Ret two_candidates_text,
            [ProcessingInclude "dir/a.tex" "/proj/dir/a.tex";
             ProcessingInclude "b.tex" "/proj/dir/b.tex"]).
Proof.
  split; [| repeat split; vm_compute; reflexivity].
  intros w tex base arg filename. subst filename.
  unfold locate_include. rewrite <- (has_separator_derive arg).
  unfold has_separator. destruct (_ || _); [done|].
  by destruct (path_exists _ _).
Qed.

(** C4 (defect in the code). Every substitution needs a line feed after
    the command: [re.sub(r'\\end\{document\}.*?\n', '', ...)] and its five
    siblings leave an occurrence on a last line without line feed in place.
    [sec.tex] ends with [\end{document}] and no line feed; its class and
    [\begin{document}] lines are stripped, the [\end{document}] line is in
    the merged text. *)
Theorem unterminated_last_line_kept :
  observed (Resolve (enough_fuel unterminated_section) "/proj" "main.tex"
              unterminated_section)
    = Some (Ret unterminated_section_text,
            [ProcessingInclude "sec.tex" "/proj/sec.tex"])
  ∧ Str.occurs "\end{document}" unterminated_section_text = true
  ∧ strip_structure "\end{document}" = "\end{document}".
Proof. repeat split; vm_compute; reflexivity. Qed.

(** [os.listdir] is called outside any [try]: when the directory part of a
    missing target is a regular file it raises, the exception leaves the
    resolver, and [create_combined_tex] reports an error and writes
    nothing. *)
Lemma listdir_failure_is_fatal :
  observed (Resolve (enough_fuel file_as_directory) "/proj" "main.tex"
              file_as_directory)
    = Some (Raise (NotADirectoryError "/proj/ch1.tex"),
            [ProcessingInclude "ch1.tex" "/proj/ch1.tex";
             IncludedFileNotFound "ch1.tex/x.tex";
             SearchedAt "/proj/ch1.tex/x.tex"])
  ∧ observed (create_combined_tex (enough_fuel file_as_directory) "/proj"
                "main.tex" "combined_document" file_as_directory)
    = Some (Ret None,
            [CreatingCombined "main.tex";
             ProcessingInclude "ch1.tex" "/proj/ch1.tex";
             IncludedFileNotFound "ch1.tex/x.tex";
             SearchedAt "/proj/ch1.tex/x.tex";
             ErrorCreatingCombined]).
Proof. split; vm_compute; reflexivity. Qed.

(** C5 (defect in the code, the one of C1). A missing target causes no
    splice and two warnings, but the directive does not always stay in the
    output: a later loop over another kind splices at stale offsets. Here
    [preamble.tex] strips to nothing, so [\input{preamble}] is replaced by
    the empty text and everything moves 16 characters to the left; the
    [\include] loop then cuts at 16-29 of the original, which removes most
    of [\input{missing}]. *)
Theorem missing_directive_lost :
  observed (Resolve (enough_fuel missing_after_preamble) "/proj" "main.tex"
              missing_after_preamble)
    = Some (Ret missing_after_preamble_text,
            [IncludedFileNotFound "missing.tex";
             SearchedAt "/proj/missing.tex";
             AvailableTexFiles "/proj" ["ch1.tex"; "main.tex"; "preamble.tex"];
             ProcessingInclude "preamble.tex" "/proj/preamble.tex";
             ProcessingInclude "ch1.tex" "/proj/ch1.tex"])
  ∧ Str.occurs "\input{missing}" missing_after_preamble_text = false.
Proof. repeat split; vm_compute; reflexivity. Qed.

(** C6 (as it holds for the code).
    For a directive whose target exists and is not the main
    file, the text spliced in is the recursed content with the structural
    lines removed and the surrounding white space trimmed, between a header
    and a footer that carry the same derived file name; when nothing is left
    after trimming, the empty text is spliced in and there are no markers.
    This is done for every directive occurrence on its own: nothing is
    shared between two inclusions of one fragment. *)
Theorem provenance_wrap :
  ∀ main_path fuel tex_file_path base_folder v result_content m w c w1,
    let filename := derive_filename (group1 m) in
    let included_path := locate_include w tex_file_path base_folder filename in
    let body := Str.strip (strip_structure c) in
    path_exists w included_path = true →
    abspath w included_path ≠ abspath w main_path →
    process_tex_recursively main_path fuel included_path base_folder v
      (add_log w [ProcessingInclude filename included_path]) = Some (Ret c, w1) →
    process_match main_path (process_tex_recursively main_path fuel)
      tex_file_path base_folder v result_content m w
    = Some (Ret (splice result_content (m_start m) (m_end m)
                   (if String.eqb body "" then ""
                    else header filename +:+ body +:+ footer filename)),
            w1).
Proof.
  intros main_path fuel tex base v result m w c w1 filename included_path body
    Hexists Hmain Hrun.
  unfold process_match. fold filename.
  unfold bind at 1, gets at 1. fold included_path.
  unfold bind at 1, gets at 1. rewrite Hexists.
  unfold expansion. unfold bind at 1. unfold bind at 1, print at 1.
  unfold bind at 1. rewrite Hrun.
  destruct (process_read_only _ _ _ _ _ _ _ _ Hrun) as [log [-> _]].
  unfold bind at 1, gets at 1.
  replace (abspath _ included_path) with (abspath w included_path) by done.
  replace (abspath _ main_path) with (abspath w main_path) by done.
  apply String.eqb_neq in Hmain. rewrite Hmain. simpl.
  unfold ret. do 3 f_equal. unfold clean_and_wrap. fold body.
  by destruct (String.eqb_spec body "") as [-> |].
Qed.

Lemma provenance_wrap_witness :
  process_match "/proj/main.tex" (process_tex_recursively "/proj/main.tex" 3)
    "/proj/main.tex" "/proj" {["/proj/main.tex"]} "a1 \input{b} a2"
    {| m_start := 3; m_end := 12; group1 := "b" |} cycle
  = Some (Ret cycle_text,
          add_log cycle [ProcessingInclude "b.tex" "/proj/b.tex";
                         ProcessingInclude "main.tex" "/proj/main.tex"]).
Proof.
  apply (provenance_wrap "/proj/main.tex" 3 "/proj/main.tex" "/proj"
           {["/proj/main.tex"]} "a1 \input{b} a2"
           {| m_start := 3; m_end := 12; group1 := "b" |} cycle "b1  b2").
  - vm_compute. reflexivity.
  - apply String.eqb_neq. vm_compute. reflexivity.
  - vm_compute. reflexivity.
Defined.

(** C6, as stated, fails: the inclusion graph of [diamond] is acyclic and
    [d.tex] is reachable through [b.tex] and through [c.tex]; its content
    and its pair of markers are in the merged text twice, not once. *)
Lemma diamond_included_twice :
  observed (Resolve (enough_fuel diamond) "/proj" "main.tex" diamond)
    = Some (Ret diamond_text,
            [ProcessingInclude "c.tex" "/proj/c.tex";
             ProcessingInclude "d.tex" "/proj/d.tex";
             ProcessingInclude "b.tex" "/proj/b.tex";
             ProcessingInclude "d.tex" "/proj/d.tex"])
  ∧ Str.count "% ========== Included from: d.tex ==========" diamond_text = 2
  ∧ Str.count "% ========== End of: d.tex ==========" diamond_text = 2.
Proof. repeat split; vm_compute; reflexivity. Qed.

(** C7 (as it holds for the code).
    The argument is trimmed first; [.tex] is appended when
    the trimmed argument lacks it. So for an argument [X] without trailing
    white space whose trimmed form lacks the suffix, [X] and [X.tex] derive
    the same file name, are looked for at the same place and give the same
    replacement text. *)
Theorem suffix_normalisation :
  ∀ X, Str.rstrip X = X → Str.endswith (Str.strip X) ".tex" = false →
    derive_filename X = Str.strip X +:+ ".tex"
    ∧ derive_filename (X +:+ ".tex") = derive_filename X
    ∧ (∀ w tex_file_path base_folder,
         locate_include w tex_file_path base_folder (derive_filename (X +:+ ".tex"))
         = locate_include w tex_file_path base_folder (derive_filename X))
    ∧ (∀ main_path recurse base_folder v included_path,
         expansion main_path recurse base_folder v
           (derive_filename (X +:+ ".tex")) included_path
         = expansion main_path recurse base_folder v
             (derive_filename X) included_path).
Proof.
  intros X Hr Hs. pose proof (derive_add_suffix X Hr Hs) as Heq.
  split; [unfold derive_filename; by rewrite Hs |].
  split; [done |]. split; intros; by rewrite Heq.
Qed.

Lemma suffix_normalisation_witness :
  derive_filename "sectionA" = "sectionA.tex"
  ∧ derive_filename "sectionA.tex" = derive_filename "sectionA"
  ∧ (∀ w tex_file_path base_folder,
       locate_include w tex_file_path base_folder (derive_filename "sectionA.tex")
       = locate_include w tex_file_path base_folder (derive_filename "sectionA"))
  ∧ (∀ main_path recurse base_folder v included_path,
       expansion main_path recurse base_folder v
         (derive_filename "sectionA.tex") included_path
       = expansion main_path recurse base_folder v
           (derive_filename "sectionA") included_path).
Proof.
  apply (suffix_normalisation "sectionA"); vm_compute; reflexivity.
Defined.

(** C7, as stated, fails for an argument with trailing white space.
    [sectionA.tex ] lacks the suffix and nothing is appended to it.
    [sectionA ] lacks the suffix too; the name derived from it is not the
    argument followed by [.tex], and the argument with [.tex] written out
    derives another name, so the two do not resolve to the same file. *)
Lemma trailing_space_argument :
  (Str.endswith "sectionA.tex " ".tex" = false
   ∧ derive_filename "sectionA.tex " = "sectionA.tex")
  ∧ Str.endswith "sectionA " ".tex" = false
  ∧ derive_filename "sectionA " = "sectionA.tex"
  ∧ derive_filename ("sectionA " +:+ ".tex") = "sectionA .tex"
  ∧ derive_filename ("sectionA " +:+ ".tex") ≠ derive_filename "sectionA ".
Proof.
  repeat split; try (vm_compute; reflexivity).
  apply String.eqb_neq. vm_compute. reflexivity.
Qed.

(** The caller, not the resolver, writes the merged text. *)
Lemma caller_writes_the_file :
  match create_combined_tex 4 "/proj" "main.tex" "combined_document" cycle with
  | Some (o, w') =>
      o = Ret (Some "combined_document.tex")
      ∧ files cycle !! "/proj/combined_document.tex" = None
      ∧ files w' !! "/proj/combined_document.tex" = Some (File cycle_text)
  | None => False
  end.
Proof. vm_compute. repeat split; reflexivity. Qed.

(** C8. A run of [Resolve] leaves the files and the current directory as
    they were: the world after the run is the world before with diagnostics
    appended to the console, and nothing else. Run again in the world it
    left, with the file system unchanged, it returns the same outcome, so
    the same text, and prints the same diagnostics. *)
Theorem resolver_read_only :
  ∀ fuel folder_path main_tex_file w o w',
    Resolve fuel folder_path main_tex_file w = Some (o, w') →
    files w' = files w ∧ cwd w' = cwd w
    ∧ ∃ log, w' = add_log w log
        ∧ Resolve fuel folder_path main_tex_file w' = Some (o, add_log w' log).
Proof.
  intros fuel folder_path main_tex_file w o w' Hrun.
  destruct (process_read_only _ _ _ _ _ _ _ _ Hrun) as [log [-> Hagain]].
  split; [done |]. split; [done |].
  exists log. split; [done |]. by apply Hagain.
Qed.

Lemma resolver_read_only_witness :
  files (add_log cycle [ProcessingInclude "b.tex" "/proj/b.tex";
                        ProcessingInclude "main.tex" "/proj/main.tex"])
    = files cycle
  ∧ cwd (add_log cycle [ProcessingInclude "b.tex" "/proj/b.tex";
                        ProcessingInclude "main.tex" "/proj/main.tex"])
    = cwd cycle
  ∧ ∃ log,
      add_log cycle [ProcessingInclude "b.tex" "/proj/b.tex";
                     ProcessingInclude "main.tex" "/proj/main.tex"]
        = add_log cycle log
      ∧ Resolve 4 "/proj" "main.tex"
          (add_log cycle [ProcessingInclude "b.tex" "/proj/b.tex";
                          ProcessingInclude "main.tex" "/proj/main.tex"])
        = Some (Ret cycle_text,
                add_log
                  (add_log cycle [ProcessingInclude "b.tex" "/proj/b.tex";
                                  ProcessingInclude "main.tex" "/proj/main.tex"])
                  log).
Proof.
  apply (resolver_read_only 4 "/proj" "main.tex" cycle (Ret cycle_text)).
  vm_compute. reflexivity.
Defined.

(** C9 (as it holds for the code).
    No match of a directive pattern has an empty argument:
    the text at the start offset of a match is the command, an opening
    brace, a non-empty argument without closing brace, and a closing brace;
    and the pattern never matches where the opening brace is followed at
    once by the closing one. A fragment in which none of the four patterns
    matches is returned as it is, and nothing is printed. *)
Theorem empty_argument_never_matched :
  (∀ cmd content m, m ∈ finditer cmd content →
     group1 m ≠ "" ∧ Str.contains "}" (group1 m) = false
     ∧ (∃ rest, Str.drop (m_start m) content
                = opener cmd +:+ group1 m +:+ "}" +:+ rest)
     ∧ m_end m = m_start m + String.length (opener cmd)
                 + String.length (group1 m) + 1)
  ∧ (∀ cmd rest, match_directive cmd (opener cmd +:+ "}" +:+ rest) = None)
  ∧ (∀ main_path fuel tex_file_path base_folder v w content,
       abspath w tex_file_path ∉ v →
       read_text w tex_file_path = Some content →
       (∀ cmd, cmd ∈ patterns.*1 → finditer cmd content = []) →
       process_tex_recursively main_path (S fuel) tex_file_path base_folder v w
       = Some (Ret content, w)).
Proof.
  split; [apply finditer_sound |].
  split; [apply match_directive_empty_argument |].
  apply process_no_directive.
Qed.

Lemma empty_argument_never_matched_witness :
  ("x" ≠ "" ∧ Str.contains "}" "x" = false
   ∧ (∃ rest, Str.drop 2 "a \input{x} b" = opener "input" +:+ "x" +:+ "}" +:+ rest)
   ∧ 11 = 2 + String.length (opener "input") + String.length "x" + 1)
  ∧ process_tex_recursively "/proj/main.tex" 1 "/proj/main.tex" "/proj" ∅
      only_empty_directive
    = Some (Ret "\input{}", only_empty_directive).
Proof.
  destruct empty_argument_never_matched as (H1 & _ & H3). split.
  - apply (H1 "input" "a \input{x} b" {| m_start := 2; m_end := 11; group1 := "x" |}).
    vm_compute. apply list_elem_of_here.
  - apply (H3 "/proj/main.tex" 0).
    + apply not_elem_of_empty.
    + vm_compute. reflexivity.
    + intros cmd Hcmd. simpl in Hcmd.
      repeat (apply elem_of_cons in Hcmd as [-> | Hcmd]; [vm_compute; reflexivity |]).
      by apply elem_of_nil in Hcmd.
Defined.

(** C9, as stated, fails: the class of the argument excludes only the
    closing brace, so in [\input{a\input{}] the pattern matches from the
    first backslash with the argument [a\input{]. The text [\input{}] is
    part of that match; the target exists, the match is replaced, and
    [\input{}] is not in the output. An opening brace alone is an argument
    too. *)
Lemma empty_directive_swallowed :
  read_text swallowed "/proj/main.tex" = Some "\input{a\input{}"
  ∧ Str.occurs "\input{}" "\input{a\input{}" = true
  ∧ (fun m => (m_start m, m_end m, group1 m)) <$> finditer "input" "\input{a\input{}"
    = [(0, 16, "a\input{")]
  ∧ observed (Resolve (enough_fuel swallowed) "/proj" "main.tex" swallowed)
    = Some (Ret swallowed_text,
            [ProcessingInclude "a\input{.tex" "/proj/a/input{.tex"])
  ∧ Str.occurs "\input{}" swallowed_text = false
  ∧ (fun m => (m_start m, m_end m, group1 m)) <$> finditer "input" "\input{{}"
    = [(0, 9, "{")].
Proof. repeat split; vm_compute; reflexivity. Qed.

(** C10 (as it holds for the code).
    The suffix test is [endswith('.tex')] on the trimmed
    argument, exact and case sensitive. When the trimmed argument does not
    end in [.tex], the derived name is the trimmed argument followed by
    [.tex]; it differs from the argument as written, which does not end in
    [.tex] either. *)
Theorem suffix_test_exact :
  ∀ arg, Str.endswith (Str.strip arg) ".tex" = false →
    derive_filename arg = Str.strip arg +:+ ".tex"
    ∧ Str.endswith arg ".tex" = false
    ∧ derive_filename arg ≠ arg.
Proof.
  intros arg Hs.
  assert (Hraw : Str.endswith arg ".tex" = false).
  { destruct (Str.endswith arg ".tex") eqn:E; [| done].
    apply strip_keeps_suffix in E. congruence. }
  split; [unfold derive_filename; by rewrite Hs |].
  split; [done |].
  intros Heq. pose proof (derive_filename_endswith arg) as He.
  rewrite Heq in He. congruence.
Qed.

Lemma suffix_test_exact_witness :
  (derive_filename "figure.png" = "figure.png.tex"
   ∧ Str.endswith "figure.png" ".tex" = false
   ∧ derive_filename "figure.png" ≠ "figure.png")
  ∧ (derive_filename "CHAPTER.TEX" = "CHAPTER.TEX.tex"
     ∧ Str.endswith "CHAPTER.TEX" ".tex" = false
     ∧ derive_filename "CHAPTER.TEX" ≠ "CHAPTER.TEX").
Proof.
  split.
  - apply (suffix_test_exact "figure.png"). vm_compute. reflexivity.
  - apply (suffix_test_exact "CHAPTER.TEX"). vm_compute. reflexivity.
Defined.

(** C10, as stated, fails for an argument that ends in white space after
    [.tex]: it does not end in [.tex], yet nothing is appended, and the name
    looked for is the trimmed argument. *)
Lemma suffix_test_after_trim :
  Str.endswith "chapter.tex " ".tex" = false
  ∧ derive_filename "chapter.tex " = "chapter.tex"
  ∧ derive_filename "chapter.tex " ≠ "chapter.tex " +:+ ".tex".
Proof.
  repeat split; try (vm_compute; reflexivity).
  apply String.eqb_neq. vm_compute. reflexivity.
Qed.

(** * Further properties of the code *)

(** ** Structural lines *)

Lemma append_nil_r s : s +:+ "" = s.
Proof. induction s as [|c s IH]; [done|]. by rewrite append_cons, IH. Qed.

Lemma occurs_cons_false lit c s :
  Str.occurs lit (String c s) = false →
  Str.startswith (String c s) lit = false ∧ Str.occurs lit s = false.
Proof. cbn [Str.occurs]. intros H. by apply orb_false_elim in H. Qed.

Lemma sub_to_eol_absent lit s : Str.occurs lit s = false → sub_to_eol lit s = s.
Proof.
  unfold sub_to_eol. induction s as [|c s IH]; intros H; [done|].
  apply occurs_cons_false in H as [H1 H2].
  cbn [sub_to_eol_from]. rewrite H1. simpl. by rewrite IH.
Qed.

(** X1. A fragment in which none of the six structural commands occurs is
    left as it is by the six substitutions; when it is not blank it is
    spliced in with only its surrounding white space trimmed, between its
    two markers. *)
Theorem structure_free_text_is_kept c :
  Str.occurs "\documentclass" c = false →
  Str.occurs "\usepackage" c = false →
  Str.occurs "\begin{document}" c = false →
  Str.occurs "\end{document}" c = false →
  Str.occurs "\maketitle" c = false →
  Str.occurs "\tableofcontents" c = false →
  strip_structure c = c
  ∧ ∀ filename, Str.strip c ≠ "" →
      clean_and_wrap filename c
      = header filename +:+ Str.strip c +:+ footer filename.
Proof.
  intros H1 H2 H3 H4 H5 H6.
  assert (Hs : strip_structure c = c).
  { unfold strip_structure. cbv zeta.
    rewrite (sub_to_eol_absent "\documentclass" c) by done.
    rewrite (sub_to_eol_absent "\usepackage" c) by done.
    rewrite (sub_to_eol_absent "\begin{document}" c) by done.
    rewrite (sub_to_eol_absent "\end{document}" c) by done.
    rewrite (sub_to_eol_absent "\maketitle" c) by done.
    by rewrite (sub_to_eol_absent "\tableofcontents" c). }
  split; [done|]. intros filename Hne. unfold clean_and_wrap. rewrite Hs.
  apply String.eqb_neq in Hne. by rewrite Hne.
Qed.

Lemma structure_free_text_is_kept_witness :
  strip_structure " Section one. " = " Section one. "
  ∧ ∀ filename, Str.strip " Section one. " ≠ "" →
      clean_and_wrap filename " Section one. "
      = header filename +:+ Str.strip " Section one. " +:+ footer filename.
Proof.
  apply (structure_free_text_is_kept " Section one. "); vm_compute; reflexivity.
Defined.

Lemma deleting_until_line_feed lit x post :
  Str.contains Str.LF x = false →
  sub_to_eol_from lit true (x +:+ Str.nl +:+ post)
  = sub_to_eol_from lit false post.
Proof.
  induction x as [|c x IH]; intros H.
  - rewrite append_nil_l. unfold Str.nl. rewrite append_cons, append_nil_l.
    cbn [sub_to_eol_from]. by rewrite Ascii.eqb_refl.
  - simpl in H. apply orb_false_elim in H as [H1 H2].
    rewrite append_cons. cbn [sub_to_eol_from]. rewrite H1. simpl. by apply IH.
Qed.

Lemma startswith_append_prefix x y lit :
  String.length lit ≤ String.length x →
  Str.startswith (x +:+ y) lit = Str.startswith x lit.
Proof.
  revert x. induction lit as [|a lit IH]; intros x H; [done|].
  destruct x as [|c x]; simpl in H; [lia|].
  rewrite append_cons. simpl. rewrite IH; [done | lia].
Qed.

Lemma count_append_self lit p : lit ≠ "" → 1 ≤ Str.count lit (p +:+ lit).
Proof.
  intros Hne. induction p as [|c p IH].
  - rewrite append_nil_l. destruct lit as [|a lit]; [done|].
    cbn [Str.count].
    replace (Str.startswith (String a lit) (String a lit)) with true; [lia|].
    symmetry. rewrite <- (append_nil_r (String a lit)) at 1.
    apply startswith_append.
  - rewrite append_cons. cbn [Str.count]. lia.
Qed.

(** X2. One substitution [re.sub(lit + r'.*?\n', '', ...)] at the first
    occurrence of the command: what stands before the command on its line
    is kept, the command, the rest of the line and the line feed are
    removed, and the scan goes on after the line feed. So a structural
    command is not removed as a full line but from the command to the end
    of the line. *)
Theorem structural_command_deletes_rest_of_line lit pre rest post :
  lit ≠ "" →
  Str.contains Str.LF (lit +:+ rest) = false →
  Str.count lit (pre +:+ lit) = 1 →
  sub_to_eol lit (pre +:+ lit +:+ rest +:+ Str.nl +:+ post)
  = pre +:+ sub_to_eol lit post.
Proof.
  intros Hne Hlf. unfold sub_to_eol.
  induction pre as [|c pre IH]; intros Hcount.
  - rewrite !append_nil_l. destruct lit as [|a lit]; [done|].
    rewrite append_cons. cbn [sub_to_eol_from].
    rewrite <- append_cons. rewrite startswith_append, drop_append.
    rewrite !contains_append.
    replace (Str.contains Str.LF Str.nl) with true by reflexivity.
    rewrite orb_true_r. simpl.
    rewrite <- append_assoc. apply deleting_until_line_feed.
    rewrite append_cons in Hlf. simpl in Hlf.
    by apply orb_false_elim in Hlf as [_ ?].
  - rewrite append_cons in Hcount. cbn [Str.count] in Hcount.
    pose proof (count_append_self lit pre Hne) as Hge.
    destruct (Str.startswith (String c (pre +:+ lit)) lit) eqn:Hsw; [lia|].
    rewrite !append_cons. cbn [sub_to_eol_from].
    replace (Str.startswith
               (String c (pre +:+ lit +:+ rest +:+ Str.nl +:+ post)) lit)
      with false.
    + simpl. f_equal. apply IH. lia.
    + rewrite <- Hsw. rewrite <- !append_cons, <- append_assoc.
      rewrite (startswith_append_prefix (String c pre +:+ lit)
                 (rest +:+ Str.nl +:+ post)); [done|].
      rewrite length_append. lia.
Qed.

Lemma structural_command_deletes_rest_of_line_witness :
  sub_to_eol "\maketitle"
    ("Title: " +:+ "\maketitle" +:+ " % make it" +:+ Str.nl +:+ "Body")
  = "Title: " +:+ sub_to_eol "\maketitle" "Body".
Proof.
  apply (structural_command_deletes_rest_of_line "\maketitle" "Title: "
           " % make it" "Body").
  - done.
  - vm_compute. reflexivity.
  - vm_compute. reflexivity.
Defined.

(** ** Directives are found *)

Lemma span_not_rbrace_stop arg post :
  Str.contains "}" arg = false →
  span_not_rbrace (arg +:+ "}" +:+ post) = arg.
Proof.
  induction arg as [|c arg IH]; intros H; [done|].
  simpl in H. apply orb_false_elim in H as [H1 H2].
  rewrite append_cons. simpl. rewrite H1. by rewrite IH.
Qed.

Lemma match_directive_complete cmd arg post :
  arg ≠ "" → Str.contains "}" arg = false →
  match_directive cmd (opener cmd +:+ arg +:+ "}" +:+ post) = Some arg.
Proof.
  intros Hne Hc. unfold match_directive.
  rewrite startswith_append, drop_append, span_not_rbrace_stop by done.
  rewrite length_append.
  replace (0 <? String.length arg) with true.
  - replace (String.length arg <? _) with true; [done|].
    symmetry. apply Nat.ltb_lt. rewrite append_cons. simpl. lia.
  - symmetry. apply Nat.ltb_lt. destruct arg; [done | simpl; lia].
Qed.

Lemma drop_nil n : Str.drop n "" = "".
Proof. by destruct n. Qed.

Lemma finditer_from_nil_iff cmd s :
  ∀ pos, finditer_from cmd pos 0 s = [] ↔
         ∀ i, match_directive cmd (Str.drop i s) = None.
Proof.
  induction s as [|c s IH]; intros pos.
  - split; [| done]. intros _ i. by rewrite drop_nil.
  - cbn [finditer_from]. split.
    + destruct (match_directive cmd (String c s)) eqn:E; [done|].
      intros H [|i]; [done|]. simpl. by apply (IH (S pos)).
    + intros H. pose proof (H 0) as H0. simpl in H0. rewrite H0.
      apply IH. intros i. apply (H (S i)).
Qed.

(** X3. The scan misses no directive: it returns no match exactly when the
    pattern matches at no offset of the text. So a text that holds a
    command, an opening brace, a non-empty argument without closing brace
    and a closing brace has at least one match, whatever stands before and
    after. *)
Theorem directive_always_found :
  (∀ cmd content,
     finditer cmd content = [] ↔
     ∀ i, match_directive cmd (Str.drop i content) = None)
  ∧ (∀ cmd pre arg post,
       arg ≠ "" → Str.contains "}" arg = false →
       match_directive cmd (opener cmd +:+ arg +:+ "}" +:+ post) = Some arg
       ∧ finditer cmd (pre +:+ opener cmd +:+ arg +:+ "}" +:+ post) ≠ []).
Proof.
  split; [intros cmd content; apply finditer_from_nil_iff |].
  intros cmd pre arg post Hne Hc.
  split; [by apply match_directive_complete |].
  intros Hnil. unfold finditer in Hnil.
  pose proof (proj1 (finditer_from_nil_iff _ _ _) Hnil (String.length pre)) as H.
  rewrite drop_append in H. by rewrite match_directive_complete in H.
Qed.

Lemma directive_always_found_witness :
  match_directive "include" (opener "include" +:+ "ch1" +:+ "}" +:+ " end")
  = Some "ch1"
  ∧ finditer "include" ("See " +:+ opener "include" +:+ "ch1" +:+ "}" +:+ " end")
    ≠ [].
Proof.
  destruct directive_always_found as [_ H].
  apply (H "include" "See " "ch1" " end"); [done | vm_compute; reflexivity].
Defined.

(** ** The derived file name *)

Lemma lstrip_idem s : Str.lstrip (Str.lstrip s) = Str.lstrip s.
Proof.
  induction s as [|c s IH]; [done|]. simpl.
  destruct (Str.isspace c) eqn:E; [done|]. simpl. by rewrite E.
Qed.

Lemma rstrip_idem s : Str.rstrip (Str.rstrip s) = Str.rstrip s.
Proof.
  induction s as [|c s IH]; [done|]. simpl.
  destruct (Str.rstrip s) as [|d r] eqn:E.
  - destruct (Str.isspace c) eqn:Ec; [done|]. simpl. by rewrite Ec.
  - cbn [Str.rstrip]. cbn [Str.rstrip] in IH. by rewrite IH.
Qed.

Lemma rstrip_lstrip s : Str.rstrip (Str.lstrip s) = Str.lstrip (Str.rstrip s).
Proof.
  induction s as [|c s IH]; [done|]. cbn [Str.lstrip Str.rstrip].
  destruct (Str.isspace c) eqn:Ec.
  - rewrite IH. destruct (Str.rstrip s) as [|d r]; [done|].
    cbn [Str.lstrip]. by rewrite Ec.
  - cbn [Str.rstrip]. destruct (Str.rstrip s) as [|d r]; cbn [Str.lstrip];
      by rewrite Ec.
Qed.

Lemma strip_idem s : Str.strip (Str.strip s) = Str.strip s.
Proof. unfold Str.strip. by rewrite rstrip_lstrip, lstrip_idem, rstrip_idem. Qed.

Lemma strip_derive arg : Str.strip (derive_filename arg) = derive_filename arg.
Proof.
  unfold derive_filename.
  destruct (Str.endswith (Str.strip arg) ".tex") eqn:E; simpl.
  - apply strip_idem.
  - unfold Str.strip at 1. rewrite rstrip_append by done.
    rewrite (lstrip_append _ "." "tex") by done.
    unfold Str.strip. by rewrite lstrip_idem.
Qed.

(** X4. The derived file name is in normal form, whatever the argument:
    it ends in [.tex], has no white space around it, and deriving a name
    from it again gives the same name. *)
Theorem derive_filename_idempotent arg :
  derive_filename (derive_filename arg) = derive_filename arg
  ∧ Str.strip (derive_filename arg) = derive_filename arg
  ∧ Str.endswith (derive_filename arg) ".tex" = true.
Proof.
  split; [| split; [apply strip_derive | apply derive_filename_endswith]].
  unfold derive_filename at 1. rewrite strip_derive.
  by rewrite derive_filename_endswith.
Qed.

(** ** One match *)

(** X5. The step of the inner loop for a match whose target does not
    exist: the two warnings are printed and the text is passed on as it
    was; the [.tex] files of the directory searched are listed when that
    directory exists and holds some; and when the place of that directory
    is taken by a regular file, the listing raises [NotADirectoryError]
    after the two warnings. *)
Theorem missing_target_step main_path recurse tex base v result m w :
  let filename := derive_filename (group1 m) in
  let included_path := locate_include w tex base filename in
  let search_dir := posixpath.dirname included_path in
  let warnings := [IncludedFileNotFound filename; SearchedAt included_path] in
  path_exists w included_path = false →
  process_match main_path recurse tex base v result m w
  = match lookup_path w search_dir with
    | Some (File _) =>
        Some (Raise (NotADirectoryError search_dir), add_log w warnings)
    | Some Dir =>
        Some (Ret result, add_log w (warnings ++ available_listing w search_dir))
    | None => Some (Ret result, add_log w warnings)
    end.
Proof.
  intros filename included_path search_dir warnings Hmissing.
  unfold process_match. fold filename.
  unfold bind at 1, gets at 1. fold included_path.
  unfold bind at 1, gets at 1. rewrite Hmissing.
  unfold report_missing. fold search_dir.
  unfold bind at 1. unfold bind at 1, print at 1.
  unfold bind at 1, print at 1. unfold bind at 1, gets at 1.
  rewrite add_log_app.
  assert (Hpe : ∀ l p, path_exists (add_log w l) p = path_exists w p) by done.
  assert (Hlp : ∀ l p, lookup_path (add_log w l) p = lookup_path w p) by done.
  assert (Hch : ∀ l p, children (add_log w l) p = children w p) by done.
  rewrite Hpe. unfold path_exists.
  destruct (lookup_path w search_dir) as [[c|]|] eqn:Hsd.
  - rewrite bool_decide_eq_true_2 by eauto.
    unfold bind at 1, listdir. by rewrite Hlp, Hsd.
  - rewrite bool_decide_eq_true_2 by eauto.
    unfold bind at 1, listdir. rewrite Hlp, Hsd, Hch.
    unfold available_listing.
    destruct (filter _ _) as [|f fs].
    + reflexivity.
    + unfold print, ret. by rewrite add_log_app.
  - rewrite bool_decide_eq_false_2 by apply is_Some_None.
    reflexivity.
Qed.

Lemma missing_target_step_witness :
  process_match "/proj/main.tex" (process_tex_recursively "/proj/main.tex" 0)
    "/proj/main.tex" "/proj" ∅ "text"
    {| m_start := 29; m_end := 44; group1 := "missing" |} missing_after_preamble
  = Some (Ret "text",
          add_log missing_after_preamble
            [IncludedFileNotFound "missing.tex"; SearchedAt "/proj/missing.tex";
             AvailableTexFiles "/proj"
               (filter (fun f => Str.endswith f ".tex" = true)
                  (children missing_after_preamble "/proj"))]).
Proof.
  rewrite (missing_target_step "/proj/main.tex"
             (process_tex_recursively "/proj/main.tex" 0)
             "/proj/main.tex" "/proj" ∅ "text"
             {| m_start := 29; m_end := 44; group1 := "missing" |}
             missing_after_preamble).
  - vm_compute. reflexivity.
  - vm_compute. reflexivity.
Defined.

(** X6. A target that exists but cannot be read (a directory, say) is not
    an error for the including fragment: the inclusion is announced, the
    read failure is reported, and the directive is replaced by the empty
    text, with no markers. *)
Theorem unreadable_fragment_is_empty main_path fuel base v filename included_path w :
  abspath w included_path ∉ v →
  read_text w included_path = None →
  expansion main_path (process_tex_recursively main_path (S fuel)) base v
    filename included_path w
  = Some (Ret "", add_log w [ProcessingInclude filename included_path;
                             CouldNotRead included_path]).
Proof.
  intros Hv Hread. unfold expansion.
  unfold bind at 1, print at 1. unfold bind at 1.
  cbn [process_tex_recursively].
  unfold bind at 1, gets at 1.
  replace (abspath (add_log w _) included_path) with (abspath w included_path)
    by done.
  rewrite bool_decide_eq_false_2 by done.
  unfold bind at 1, gets at 1.
  replace (read_text (add_log w _) included_path) with (read_text w included_path)
    by done.
  rewrite Hread. unfold bind at 1, print at 1. unfold ret at 1.
  rewrite add_log_app. simpl app.
  unfold bind, gets. by destruct (negb _).
Qed.

Lemma unreadable_fragment_is_empty_witness :
  expansion "/proj/main.tex" (process_tex_recursively "/proj/main.tex" 1) "/proj"
    {["/proj/main.tex"]} "figures.tex" "/proj/figures.tex" no_candidate
  = Some (Ret "", add_log no_candidate
                    [ProcessingInclude "figures.tex" "/proj/figures.tex";
                     CouldNotRead "/proj/figures.tex"]).
Proof.
  apply (unreadable_fragment_is_empty "/proj/main.tex" 0 "/proj"
           {["/proj/main.tex"]} "figures.tex" "/proj/figures.tex" no_candidate).
  - vm_compute. intros H. discriminate H.
  - vm_compute. reflexivity.
Defined.

(** ** One loop of the resolver *)

Lemma right_to_left_steps repl content ms :
  ∀ pos, well_placed (String.length content) pos ms →
    foldr (fun m r => splice_step repl r m) content ms
    = Str.take pos content
      +:+ in_place (fun m => default (directive_text content m) (repl m))
            content pos ms.
Proof.
  induction ms as [|m ms IH]; intros pos; simpl.
  - intros _. by rewrite take_drop.
  - intros (H1 & H2 & H3). rewrite (IH _ H3).
    pose proof (well_placed_le _ _ _ H3) as Hle.
    rewrite <- (append_assoc (Str.take pos content)).
    rewrite take_split by done.
    unfold splice_step. destruct (repl m) as [t|]; simpl.
    + unfold splice.
      rewrite take_append_le by (rewrite length_take; lia).
      rewrite take_take by done.
      by rewrite drop_take_append.
    + unfold directive_text.
      rewrite <- (append_assoc (Str.take (m_start m) content)).
      by rewrite take_split.
Qed.

Lemma foldl_rev_foldr {A B} (f : B → A → B) (l : list A) (b : B) :
  foldl f b (rev l) = foldr (fun x r => f r x) b l.
Proof.
  revert b. induction l as [|x l IH]; intros b; [done|].
  simpl. by rewrite foldl_app, IH.
Qed.

Section Loop.
Context (main_path : string) (fuel : nat) (tex base : string) (v : gset string).

Lemma match_step w r0 m r1 w1 :
  process_match main_path (process_tex_recursively main_path fuel) tex base v
    r0 m w = Some (Ret r1, w1) →
  r1 = splice_step (replacement_opt main_path fuel tex base v w) r0 m
  ∧ files w1 = files w ∧ cwd w1 = cwd w.
Proof.
  intros Hrun. split.
  - unfold process_match in Hrun.
    unfold bind at 1, gets at 1 in Hrun. unfold bind at 1, gets at 1 in Hrun.
    unfold splice_step, replacement_opt.
    set (filename := derive_filename (group1 m)) in *.
    set (p := locate_include w tex base filename) in *.
    destruct (path_exists w p).
    + unfold bind at 1 in Hrun.
      destruct (behaves_expansion (files w) (cwd w) main_path
                  (unvisited (files w) v + 1 ≤ fuel)
                  (process_tex_recursively main_path fuel) base v
                  (fun q => behaves_process (files w) (cwd w) main_path fuel q base v)
                  filename p) as [r [Hr _]].
      rewrite (Hr w eq_refl eq_refl) in Hrun.
      rewrite (Hr (quiet w) eq_refl eq_refl).
      destruct r as [[[c|e] log]|]; simpl in *; [| done | done].
      unfold ret in Hrun. by injection Hrun as <- _.
    + unfold bind at 1 in Hrun.
      destruct (report_missing filename p w) as [[[[]|e] w2]|]; [| done | done].
      unfold ret in Hrun. by injection Hrun as <- _.
  - destruct (behaves_process_match (files w) (cwd w) main_path
                (unvisited (files w) v + 1 ≤ fuel)
                (process_tex_recursively main_path fuel) base v
                (fun q => behaves_process (files w) (cwd w) main_path fuel q base v)
                tex r0 m) as [r [Hr _]].
    rewrite (Hr w eq_refl eq_refl) in Hrun.
    destruct r as [[o log]|]; simpl in Hrun; [| done].
    by injection Hrun as _ <-.
Qed.

Lemma replacement_opt_frame w w1 m :
  files w1 = files w → cwd w1 = cwd w →
  replacement_opt main_path fuel tex base v w1 m
  = replacement_opt main_path fuel tex base v w m.
Proof.
  intros HF HC. unfold replacement_opt, locate_include, path_exists,
    lookup_path, abspath, quiet. by rewrite HF, HC.
Qed.

Lemma loop_result l :
  ∀ r0 w out w',
    for_each l (process_match main_path (process_tex_recursively main_path fuel)
                  tex base v) r0 w = Some (Ret out, w') →
    out = foldl (splice_step (replacement_opt main_path fuel tex base v w)) r0 l.
Proof.
  induction l as [|m l IH]; intros r0 w out w' Hrun.
  - simpl in Hrun. unfold ret in Hrun. by injection Hrun as <- _.
  - cbn [for_each] in Hrun. unfold bind in Hrun.
    destruct (process_match _ _ _ _ _ r0 m w) as [[[r1|e] w1]|] eqn:Hm;
      [| done | done].
    destruct (match_step _ _ _ _ _ Hm) as (-> & HF & HC).
    simpl. rewrite (IH _ _ _ _ Hrun).
    assert (Hext : ∀ (k : list Match) b,
              foldl (splice_step (replacement_opt main_path fuel tex base v w1)) b k
              = foldl (splice_step (replacement_opt main_path fuel tex base v w)) b k).
    { induction k as [|x k IHk]; intros b; [done|]. simpl.
      unfold splice_step at 2 4. rewrite (replacement_opt_frame w w1 x HF HC).
      apply IHk. }
    apply Hext.
Qed.
End Loop.

Lemma bind_ret_r {A} (m : M A) w : bind m ret w = m w.
Proof. unfold bind, ret. by destruct (m w) as [[[a|e] w1]|]. Qed.

Lemma process_patterns_one_kind main_path recurse tex base v content cmd w :
  cmd ∈ patterns.*1 →
  (∀ c, c ∈ patterns.*1 → c ≠ cmd → finditer c content = []) →
  process_patterns main_path recurse tex base v content w
  = for_each (rev (finditer cmd content))
      (process_match main_path recurse tex base v) content w.
Proof.
  intros Hcmd Hothers. unfold process_patterns, patterns in *. simpl in Hcmd.
  assert (Hin : ∀ c, c ∈ ["input"; "include"; "subfile"; "InputIfFileExists"] →
                     c ≠ cmd → finditer c content = []) by exact Hothers.
  repeat (apply elem_of_cons in Hcmd as [-> | Hcmd]);
    [ | | | | by apply elem_of_nil in Hcmd ].
  - cbn [for_each].
    rewrite (Hin "include"), (Hin "subfile"), (Hin "InputIfFileExists")
      by (first [set_solver | done]).
    simpl rev. cbn [for_each]. unfold bind at 1.
    destruct (for_each _ _ content w) as [[[a|e] w1]|]; reflexivity.
  - cbn [for_each].
    rewrite (Hin "input"), (Hin "subfile"), (Hin "InputIfFileExists")
      by (first [set_solver | done]).
    simpl rev. cbn [for_each]. unfold bind at 1, ret at 1. unfold bind at 1.
    destruct (for_each _ _ content w) as [[[a|e] w1]|]; reflexivity.
  - cbn [for_each].
    rewrite (Hin "input"), (Hin "include"), (Hin "InputIfFileExists")
      by (first [set_solver | done]).
    simpl rev. cbn [for_each]. unfold bind at 1, ret at 1.
    unfold bind at 1, ret at 1. unfold bind at 1.
    destruct (for_each _ _ content w) as [[[a|e] w1]|]; reflexivity.
  - cbn [for_each].
    rewrite (Hin "input"), (Hin "include"), (Hin "subfile")
      by (first [set_solver | done]).
    simpl rev. cbn [for_each]. unfold bind at 1, ret at 1.
    unfold bind at 1, ret at 1. unfold bind at 1, ret at 1. unfold bind at 1.
    destruct (for_each _ _ content w) as [[[a|e] w1]|]; reflexivity.
Qed.

(** X7. When directives of one kind only occur in a fragment, a call that
    returns gives the text of the fragment with every directive replaced in
    place, at its own range: by its expansion when the target exists, and
    by the directive itself (left as it is) when the target is missing.
    The stale offsets met with several kinds cannot arise with one kind. *)
Theorem one_kind_replaced_in_place main_path fuel tex base v w content cmd out w' :
  abspath w tex ∉ v →
  read_text w tex = Some content →
  cmd ∈ patterns.*1 →
  (∀ c, c ∈ patterns.*1 → c ≠ cmd → finditer c content = []) →
  process_tex_recursively main_path (S fuel) tex base v w = Some (Ret out, w') →
  out = in_place
          (replacement main_path fuel tex base ({[abspath w tex]} ∪ v) w content)
          content 0 (finditer cmd content).
Proof.
  intros Hv Hread Hcmd Hothers Hrun.
  cbn [process_tex_recursively] in Hrun.
  unfold bind at 1, gets at 1 in Hrun.
  rewrite bool_decide_eq_false_2 in Hrun by done.
  unfold bind at 1, gets at 1 in Hrun. rewrite Hread in Hrun.
  rewrite (process_patterns_one_kind _ _ _ _ _ _ cmd) in Hrun by done.
  apply loop_result in Hrun. rewrite Hrun.
  rewrite foldl_rev_foldr.
  rewrite (right_to_left_steps _ content _ 0); [done |].
  apply (finditer_from_well_placed cmd content 0 0). lia.
Qed.

Lemma one_kind_replaced_in_place_witness :
  cycle_text
  = in_place
      (replacement "/proj/main.tex" 3 "/proj/main.tex" "/proj"
         ({[abspath cycle "/proj/main.tex"]} ∪ ∅) cycle "a1 \input{b} a2")
      "a1 \input{b} a2" 0 (finditer "input" "a1 \input{b} a2").
Proof.
  apply (one_kind_replaced_in_place "/proj/main.tex" 3 "/proj/main.tex" "/proj" ∅
           cycle "a1 \input{b} a2" "input" cycle_text
           (add_log cycle [ProcessingInclude "b.tex" "/proj/b.tex";
                           ProcessingInclude "main.tex" "/proj/main.tex"])).
  - apply not_elem_of_empty.
  - vm_compute. reflexivity.
  - simpl. apply list_elem_of_here.
  - intros c Hc Hne. simpl in Hc.
    repeat (apply elem_of_cons in Hc as [-> | Hc]; [first [done | vm_compute; reflexivity] |]).
    by apply elem_of_nil in Hc.
  - vm_compute. reflexivity.
Defined.

(** ** The caller *)



(** X9. A root file that cannot be read does not make
    [create_combined_tex] fail: the resolver returns the empty text with
    one read warning, and the caller still writes the combined file, empty,
    reports success and returns its name. *)
Theorem unreadable_root_gives_empty_file fuel folder_path main_tex_file output_name w :
  let main_path := posixpath.join folder_path main_tex_file in
  let combined_path := posixpath.join folder_path (output_name +:+ ".tex") in
  read_text w main_path = None →
  files w !! posixpath.dirname (abspath w combined_path) = Some Dir →
  lookup_path w combined_path ≠ Some Dir →
  Resolve (S fuel) folder_path main_tex_file w
  = Some (Ret "", add_log w [CouldNotRead main_path])
  ∧ create_combined_tex (S fuel) folder_path main_tex_file output_name w
    = Some (Ret (Some (output_name +:+ ".tex")),
            {| files := <[abspath w combined_path := File ""]> (files w);
               cwd := cwd w;
               stdout := stdout w ++ [CreatingCombined main_tex_file;
                                      CouldNotRead main_path;
                                      CombinedCreated (output_name +:+ ".tex")] |}).
Proof.
  intros main_path combined_path Hread Hparent Htarget.
  assert (Hres : ∀ w1, files w1 = files w → cwd w1 = cwd w →
            Resolve (S fuel) folder_path main_tex_file w1
            = Some (Ret "", add_log w1 [CouldNotRead main_path])).
  { intros w1 HF HC. unfold Resolve. fold main_path.
    cbn [process_tex_recursively].
    unfold bind at 1, gets at 1.
    rewrite bool_decide_eq_false_2 by apply not_elem_of_empty.
    unfold bind at 1, gets at 1.
    replace (read_text w1 main_path) with (read_text w main_path).
    - rewrite Hread. reflexivity.
    - unfold read_text, lookup_path, abspath. by rewrite HF, HC. }
  split; [by apply Hres |].
  unfold create_combined_tex. fold combined_path.
  unfold bind at 1, print at 1. unfold try_except. unfold bind at 1.
  rewrite Hres by done.
  unfold bind at 1, write_text.
  set (w2 := add_log _ _).
  replace (lookup_path w2 combined_path) with (lookup_path w combined_path) by done.
  replace (files w2) with (files w) by done.
  replace (abspath w2 combined_path) with (abspath w combined_path) by done.
  rewrite Hparent.
  destruct (lookup_path w combined_path) as [[c|]|] eqn:Hl; [| done |];
    unfold bind, print, ret, add_log; simpl; by rewrite <- !app_assoc.
Qed.

Lemma unreadable_root_gives_empty_file_witness :
  Resolve 1 "/proj" "main.tex" empty_project
  = Some (Ret "", add_log empty_project
                    [CouldNotRead (posixpath.join "/proj" "main.tex")])
  ∧ create_combined_tex 1 "/proj" "main.tex" "combined" empty_project
    = Some (Ret (Some ("combined" +:+ ".tex")),
            {| files := <[abspath empty_project
                            (posixpath.join "/proj" ("combined" +:+ ".tex"))
                          := File ""]> (files empty_project);
               cwd := cwd empty_project;
               stdout := stdout empty_project
                           ++ [CreatingCombined "main.tex";
                               CouldNotRead (posixpath.join "/proj" "main.tex");
                               CombinedCreated ("combined" +:+ ".tex")] |}).
Proof.
  apply (unreadable_root_gives_empty_file 0 "/proj" "main.tex" "combined"
           empty_project).
  - vm_compute. reflexivity.
  - vm_compute. reflexivity.
  - vm_compute. intros H. discriminate H.
Defined.

Lemma join_nonempty a b : b ≠ "" → posixpath.join a b ≠ "".
Proof.
  intros Hb. unfold posixpath.join.
  destruct (Str.startswith b "/"); [done|].
  destruct (_ || _).
  - destruct a; [by rewrite append_nil_l | by rewrite append_cons].
  - destruct a; [by rewrite append_nil_l | by rewrite append_cons].
Qed.

(** X10. The caller does not protect the root file: when the output name
    is the stem of the root file and the call succeeds, the root file
    itself then holds the merged text. *)
Theorem root_is_overwritten fuel folder_path stem w name w' :
  let main_tex_file := stem +:+ ".tex" in
  let main_path := posixpath.join folder_path main_tex_file in
  create_combined_tex fuel folder_path main_tex_file stem w
  = Some (Ret (Some name), w') →
  ∃ text log,
    Resolve fuel folder_path main_tex_file w = Some (Ret text, add_log w log)
    ∧ read_text w' main_path = Some text.
Proof.
  intros main_tex_file main_path. unfold create_combined_tex.
  fold main_tex_file. fold main_path.
  unfold bind at 1, print at 1. unfold try_except. unfold bind at 1.
  set (w1 := add_log w _).
  destruct (Resolve fuel folder_path main_tex_file w1) as [[[text|e] w2]|] eqn:Hrun;
    [| unfold bind, print, ret; simpl; intros [=] | done].
  destruct (process_read_only _ _ _ _ _ _ _ _ Hrun) as (log & -> & Hany).
  unfold bind at 1, write_text.
  set (w2 := add_log w1 log).
  replace (lookup_path w2 main_path) with (lookup_path w main_path) by done.
  replace (files w2) with (files w) by done.
  replace (abspath w2 main_path) with (abspath w main_path) by done.
  destruct (lookup_path w main_path) as [[c|]|] eqn:Hl;
    destruct (files w !! posixpath.dirname (abspath w main_path)) as [[c2|]|] eqn:Hd;
    unfold bind, print, ret; simpl; intros [= <- <-];
    exists text, log; (split; [exact (Hany w eq_refl eq_refl) |]);
    unfold read_text, lookup_path; simpl;
    (destruct (String.eqb_spec main_path "") as [E|_];
       [by apply join_nonempty in E; [| by destruct stem] |]);
    unfold abspath; simpl; by rewrite lookup_insert_eq.
Qed.

Lemma root_is_overwritten_witness :
  ∃ text log,
    Resolve 4 "/proj" ("main" +:+ ".tex") cycle
    = Some (Ret text, add_log cycle log)
    ∧ read_text cycle_overwritten (posixpath.join "/proj" ("main" +:+ ".tex"))
      = Some text.
Proof.
  apply (root_is_overwritten 4 "/proj" "main" cycle "main.tex" cycle_overwritten).
  vm_compute. reflexivity.
Defined.

(** ** [find_main_tex] *)

Lemma first_existing_Some w folder l c :
  first_existing w folder l = Some c ↔
  ∃ pre post, l = pre ++ c :: post
    ∧ path_exists w (posixpath.join folder c) = true
    ∧ ∀ c', c' ∈ pre → path_exists w (posixpath.join folder c') = false.
Proof.
  induction l as [|x l IH]; simpl.
  - split; [done|]. intros (pre & post & H & _). by destruct pre.
  - destruct (path_exists w (posixpath.join folder x)) eqn:E.
    + split.
      * intros [= <-]. exists [], l. split; [done|]. split; [done|].
        intros c' Hc'. by apply elem_of_nil in Hc'.
      * intros (pre & post & H & Hc & Hpre). destruct pre as [|y pre].
        -- by injection H as -> _.
        -- injection H as -> _. rewrite Hpre in E; [done | apply list_elem_of_here].
    + rewrite IH. split.
      * intros (pre & post & -> & Hc & Hpre). exists (x :: pre), post.
        split; [done|]. split; [done|].
        intros c' Hc'. apply elem_of_cons in Hc' as [-> | Hc']; auto.
      * intros (pre & post & H & Hc & Hpre). destruct pre as [|y pre].
        -- injection H as -> _. congruence.
        -- injection H as -> ->. exists pre, post. split; [done|]. split; [done|].
           intros c' Hc'. apply Hpre. by apply list_elem_of_further.
Qed.

Lemma first_existing_None w folder l :
  first_existing w folder l = None ↔
  ∀ c, c ∈ l → path_exists w (posixpath.join folder c) = false.
Proof.
  induction l as [|x l IH]; simpl.
  - split; [| done]. intros _ c Hc. by apply elem_of_nil in Hc.
  - destruct (path_exists w (posixpath.join folder x)) eqn:E.
    + split; [done|]. intros H. rewrite H in E; [done | apply list_elem_of_here].
    + rewrite IH. split.
      * intros H c Hc. apply elem_of_cons in Hc as [-> | Hc]; auto.
      * intros H c Hc. apply H. by apply list_elem_of_further.
Qed.

Lemma first_with_documentclass_spec folder l :
  ∀ w, ∃ r log,
    first_with_documentclass folder l w = Some (Ret r, add_log w log)
    ∧ match r with
      | Some f => ∃ pre post, l = pre ++ f :: post
                   ∧ declares_class w folder f
                   ∧ ∀ g, g ∈ pre → ¬ declares_class w folder g
      | None => ∀ g, g ∈ l → ¬ declares_class w folder g
      end.
Proof.
  induction l as [|x l IH]; intros w.
  - exists None, []. split; [by rewrite add_log_nil|].
    intros g Hg. by apply elem_of_nil in Hg.
  - cbn [first_with_documentclass]. unfold bind at 1, gets at 1.
    assert (Hframe : ∀ log f, declares_class (add_log w log) folder f
                              ↔ declares_class w folder f) by done.
    assert (Hcons : ∀ (r : option string) w1,
      (∀ f, declares_class w1 folder f ↔ declares_class w folder f) →
      ¬ declares_class w folder x →
      match r with
      | Some f => ∃ pre post, l = pre ++ f :: post
                   ∧ declares_class w1 folder f
                   ∧ ∀ g, g ∈ pre → ¬ declares_class w1 folder g
      | None => ∀ g, g ∈ l → ¬ declares_class w1 folder g
      end →
      match r with
      | Some f => ∃ pre post, x :: l = pre ++ f :: post
                   ∧ declares_class w folder f
                   ∧ ∀ g, g ∈ pre → ¬ declares_class w folder g
      | None => ∀ g, g ∈ x :: l → ¬ declares_class w folder g
      end).
    { intros [f|] w1 Hw1 Hx.
      - intros (pre & post & -> & Hf & Hpre). exists (x :: pre), post.
        split; [done|]. split; [by apply Hw1|].
        intros g Hg. apply elem_of_cons in Hg as [-> | Hg]; [done|].
        rewrite <- Hw1. by apply Hpre.
      - intros H g Hg. apply elem_of_cons in Hg as [-> | Hg]; [done|].
        rewrite <- Hw1. by apply H. }
    destruct (read_text w (posixpath.join folder x)) as [content|] eqn:Hread.
    + destruct (Str.occurs "\documentclass" content) eqn:Hocc.
      * exists (Some x), []. split; [by rewrite add_log_nil|].
        exists [], l. split; [done|]. split; [by exists content|].
        intros g Hg. by apply elem_of_nil in Hg.
      * destruct (IH w) as (r & log & Hrun & Hr).
        exists r, log. split; [done|].
        apply (Hcons r w); [done | | done].
        intros (c & Hc & Ho). congruence.
    + unfold bind at 1, print at 1.
      destruct (IH (add_log w [CouldNotRead x])) as (r & log & Hrun & Hr).
      exists r, ([CouldNotRead x] ++ log). rewrite <- add_log_app.
      split; [done|].
      apply (Hcons r (add_log w [CouldNotRead x])); [by intros | | done].
      intros (c & Hc & Ho). congruence.
Qed.

(** X11. The four usual names are tried in order and only for existence:
    the first one that exists in the folder is returned, with no
    diagnostic, without being read and whatever the other entries hold.
    In the example [main.tex] is a directory and is chosen although
    [paper.tex] is the document. *)
Theorem find_main_tex_prefers_candidates folder_path w pre c post :
  main_candidates = pre ++ c :: post →
  (∀ c', c' ∈ pre → path_exists w (posixpath.join folder_path c') = false) →
  path_exists w (posixpath.join folder_path c) = true →
  find_main_tex folder_path w = Some (Ret (Some c), w).
Proof.
  intros Hl Hpre Hc. unfold find_main_tex, bind, gets.
  replace (first_existing w folder_path main_candidates) with (Some c); [done|].
  symmetry. apply first_existing_Some. by exists pre, post.
Qed.

Lemma find_main_tex_prefers_candidates_witness :
  find_main_tex "/proj" candidate_is_directory
  = Some (Ret (Some "main.tex"), candidate_is_directory)
  ∧ read_text candidate_is_directory "/proj/main.tex" = None.
Proof.
  split; [| vm_compute; reflexivity].
  apply (find_main_tex_prefers_candidates "/proj" candidate_is_directory []
           "main.tex" ["document.tex"; "thesis.tex"; "paper.tex"]).
  - reflexivity.
  - intros c' Hc'. by apply elem_of_nil in Hc'.
  - vm_compute. reflexivity.
Defined.

(** X12. When none of the four usual names exists and the folder is a
    directory, [find_main_tex] returns without raising; a name it returns
    is an entry of the folder that ends in [.tex], can be read and
    contains [\documentclass]; and it returns [None] only when no entry
    ending in [.tex] is a readable file that contains [\documentclass]. *)
Theorem find_main_tex_fallback folder_path w :
  (∀ c, c ∈ main_candidates → path_exists w (posixpath.join folder_path c) = false) →
  lookup_path w folder_path = Some Dir →
  ∃ r log,
    find_main_tex folder_path w = Some (Ret r, add_log w log)
    ∧ match r with
      | Some f =>
          f ∈ children w folder_path ∧ Str.endswith f ".tex" = true
          ∧ declares_class w folder_path f
      | None =>
          ∀ g, g ∈ children w folder_path → Str.endswith g ".tex" = true →
               ¬ declares_class w folder_path g
      end.
Proof.
  intros Hnone Hdir. unfold find_main_tex. unfold bind at 1, gets at 1.
  replace (first_existing w folder_path main_candidates) with (@None string)
    by (symmetry; by apply first_existing_None).
  unfold bind at 1, listdir. rewrite Hdir.
  destruct (first_with_documentclass_spec folder_path
              (filter (fun f => Str.endswith f ".tex" = true)
                 (children w folder_path)) w) as (r & log & Hrun & Hr).
  exists r, log. split; [done|]. destruct r as [f|].
  - destruct Hr as (pre & post & Hl & Hf & _).
    assert (Hin : f ∈ filter (fun f => Str.endswith f ".tex" = true)
                    (children w folder_path)).
    { rewrite Hl. apply elem_of_app. right. apply list_elem_of_here. }
    apply list_elem_of_filter in Hin as [He Hc]. done.
  - intros g Hg He. apply Hr. by apply list_elem_of_filter.
Qed.

Lemma find_main_tex_fallback_witness :
  ∃ r log,
    find_main_tex "/proj" no_candidate = Some (Ret r, add_log no_candidate log)
    ∧ match r with
      | Some f =>
          f ∈ children no_candidate "/proj" ∧ Str.endswith f ".tex" = true
          ∧ declares_class no_candidate "/proj" f
      | None =>
          ∀ g, g ∈ children no_candidate "/proj" → Str.endswith g ".tex" = true →
               ¬ declares_class no_candidate "/proj" g
      end.
Proof.
  apply (find_main_tex_fallback "/proj" no_candidate).
  - intros c Hc. unfold main_candidates in Hc.
    repeat (apply elem_of_cons in Hc as [-> | Hc]; [vm_compute; reflexivity |]).
    by apply elem_of_nil in Hc.
  - vm_compute. reflexivity.
Defined.

(** ** [convert_individual_files] *)

Lemma rfind_succ_absent c s : Str.contains c s = false → Str.rfind_succ c s = 0.
Proof.
  induction s as [|d s IH]; [done|]. simpl. intros H.
  apply orb_false_elim in H as [H1 H2]. by rewrite IH, H1.
Qed.

Lemma rfind_succ_last c s t :
  Str.contains c t = false →
  Str.rfind_succ c (s +:+ String c t) = String.length s + 1.
Proof.
  intros Ht. induction s as [|d s IH].
  - rewrite append_nil_l. simpl. by rewrite rfind_succ_absent, Ascii.eqb_refl.
  - rewrite append_cons. simpl. rewrite IH.
    replace (String.length s + 1) with (S (String.length s)) by lia. lia.
Qed.

Lemma take_append_length s t : Str.take (String.length s) (s +:+ t) = s.
Proof.
  induction s as [|c s IH]; [done|]. rewrite append_cons. simpl. by rewrite IH.
Qed.

Lemma splitext_tex stem :
  Str.contains "/" stem = false → Str.all_char "." stem = false →
  splitext (stem +:+ ".tex") = (stem, ".tex").
Proof.
  intros Hsep Hdots. unfold splitext.
  rewrite (rfind_succ_absent "/") by (by rewrite contains_append, Hsep).
  rewrite (rfind_succ_last "." stem "tex") by done.
  replace (String.length stem + 1 - 1 - 0) with (String.length stem) by lia.
  replace (String.length stem + 1 - 1) with (String.length stem) by lia.
  replace (Str.drop 0 (stem +:+ ".tex")) with (stem +:+ ".tex") by done.
  rewrite take_append_length, drop_append, Hdots.
  replace (0 <? String.length stem + 1) with true; [done|].
  symmetry. apply Nat.ltb_lt. lia.
Qed.

(** X13. In a folder that is a directory, the commands of the individual
    conversion are built without error, and an entry [stem.tex] whose name
    does not start with [combined_] (the stem not being made of dots only)
    is converted by a command that reads [stem.tex] and writes
    [stem.docx] in the same folder, with the bibliography options exactly
    when one of the candidate bibliography files exists. *)
Theorem individual_output_name w pandoc_path folder_path stem :
  lookup_path w folder_path = Some Dir →
  stem +:+ ".tex" ∈ children w folder_path →
  Str.startswith (stem +:+ ".tex") "combined_" = false →
  Str.contains "/" stem = false →
  Str.all_char "." stem = false →
  ∃ cmds,
    individual_commands pandoc_path folder_path w = Some (Ret cmds, w)
    ∧ ([pandoc_path; posixpath.join folder_path (stem +:+ ".tex"); "-o";
        posixpath.join folder_path (stem +:+ ".docx")]
         ++ match find_bibliography w folder_path with
            | Some b => ["--bibliography"; b; "--citeproc"]
            | None => []
            end
         ++ ["--from"; "latex"; "--to"; "docx"; "--standalone"])
      ∈ cmds.
Proof.
  intros Hdir Hin Hprefix Hsep Hdots. unfold individual_commands.
  unfold bind at 1, gets at 1. unfold bind at 1, listdir. rewrite Hdir.
  eexists. split; [reflexivity|].
  apply list_elem_of_fmap. exists (stem +:+ ".tex"). split.
  - unfold individual_command. by rewrite splitext_tex.
  - apply list_elem_of_filter. split; [| done].
    unfold converted_individually. by rewrite endswith_append, Hprefix.
Qed.

Lemma individual_output_name_witness :
  ∃ cmds,
    individual_commands "pandoc" "/proj" no_candidate
    = Some (Ret cmds, no_candidate)
    ∧ (["pandoc"; posixpath.join "/proj" ("report" +:+ ".tex"); "-o";
        posixpath.join "/proj" ("report" +:+ ".docx")]
         ++ match find_bibliography no_candidate "/proj" with
            | Some b => ["--bibliography"; b; "--citeproc"]
            | None => []
            end
         ++ ["--from"; "latex"; "--to"; "docx"; "--standalone"])
      ∈ cmds.
Proof.
  apply (individual_output_name no_candidate "pandoc" "/proj" "report").
  - vm_compute. reflexivity.
  - apply (list_elem_of_fmap_2 basename _ "/proj/report.tex").
    apply list_elem_of_filter. split; [by vm_compute |].
    apply elem_of_elements, elem_of_dom. vm_compute. eauto.
  - vm_compute. reflexivity.
  - vm_compute. reflexivity.
  - vm_compute. reflexivity.
Defined.
